(** * mcp-python-client: the agent loop of [main.py]

    A shallow embedding of [main.py]: the [MCPClient] class, the
    [agent_loop] coroutine and the session shell [main], followed by the
    properties of the turn loop.

    Python objects that are mutated in place (the [messages] list, the
    [MCPClient] instances) live in a store and are passed by reference, as
    in the source.  The awaits are sequential, so a coroutine is a function
    from the world before to a result and the world after.  The libraries
    the program talks to (the chat-completion API, the stdio transport, the
    MCP session, [json.loads], the configured prompt template) are not part
    of the repository: they are parameters, and every request sent to them
    is recorded in a trace.  Console output is not modelled. *)

From Stdlib Require Import ZArith Lia Ascii String.
From stdpp Require Import base option list strings.

Local Open Scope string_scope.
Local Open Scope list_scope.

(** ** Values *)

(** What [json.loads] can return, and what a tool's [inputSchema] is. *)
#[local] Set Warnings "-register-all".
Inductive json : Type :=
  | JNull
  | JBool (b : bool)
  | JInt (z : Z)
  | JFloat (mantissa exponent : Z)
  | JStr (s : string)
  | JList (items : list json)
  | JDict (items : list (string * json)).

(** Keyword arguments of a call, [**kwargs]. *)
Definition kwargs : Type := list (string * json).

Inductive Exn : Type :=
  | RuntimeError (msg : string)
  | KeyError (key : string)
  | TypeError
  | IndexError
  | AttributeError
  | JSONDecodeError
  | LibraryError (what : string).

Inductive Result (A : Type) : Type :=
  | Ok (a : A)
  | Raise (e : Exn).
Arguments Ok {A} a.
Arguments Raise {A} e.

Definition is_ok {A} (r : Result A) : bool :=
  match r with Ok _ => true | Raise _ => false end.

(** ** Strings *)

(** [sep.join(parts)]. *)
Fixpoint join (sep : string) (parts : list string) : string :=
  match parts with
  | [] => ""
  | [p] => p
  | p :: rest => p +:+ sep +:+ join sep rest
  end.

(** [f"{x}"] for a value that is a string or [None]. *)
Definition fstr (x : option string) : string :=
  match x with Some s => s | None => "None" end.

Definition hex_digit (n : N) : ascii :=
  match n with
  | 0 => "0" | 1 => "1" | 2 => "2" | 3 => "3" | 4 => "4" | 5 => "5"
  | 6 => "6" | 7 => "7" | 8 => "8" | 9 => "9" | 10 => "a" | 11 => "b"
  | 12 => "c" | 13 => "d" | 14 => "e" | _ => "f"
  end%N%char.

(** ['\\u{0:04x}'.format(n)] for a code point below 256. *)
Definition u_escape (n : N) : string :=
  String "\" (String "u" (String "0" (String "0"
    (String (hex_digit (n / 16)) (String (hex_digit (n mod 16)) ""))))).

(** The replacement [json.dumps] makes for one character of a string
    (standard library, [ensure_ascii=True]): the short escapes, a [\u]
    escape for every other character outside [' '..'~'], the character
    itself otherwise.  A character is a code point below 256. *)
Definition json_escape (c : ascii) : string :=
  let n := N_of_ascii c in
  if (n =? 34)%N then String "\" (String c "")
  else if (n =? 92)%N then String "\" (String c "")
  else if (n =? 8)%N then String "\" "b"
  else if (n =? 12)%N then String "\" "f"
  else if (n =? 10)%N then String "\" "n"
  else if (n =? 13)%N then String "\" "r"
  else if (n =? 9)%N then String "\" "t"
  else if ((n <? 32) || (126 <? n))%N then u_escape n
  else String c "".

Fixpoint json_escape_all (s : string) : string :=
  match s with
  | EmptyString => ""
  | String c rest => json_escape c +:+ json_escape_all rest
  end.

Definition dquote : ascii := ascii_of_N 34.

(** [json.dumps(s)] for a string [s]. *)
Definition json_dumps (s : string) : string :=
  String dquote (json_escape_all s +:+ String dquote "").

(** [s.lower()] on code points below 256. *)
Definition lower_char (c : ascii) : ascii :=
  let n := N_of_ascii c in
  if ((65 <=? n) && (n <=? 90))%N then ascii_of_N (n + 32)
  else if ((192 <=? n) && (n <=? 222) && negb (n =? 215))%N then ascii_of_N (n + 32)
  else c.

Fixpoint lower (s : string) : string :=
  match s with
  | EmptyString => ""
  | String c rest => String (lower_char c) (lower rest)
  end.

(** ** Messages, tools and requests *)

(** [tool_call] of a response: [id], [function.name], [function.arguments]. *)
Record ToolCall : Type := {
  tc_id : string;
  tc_function_name : string;
  tc_function_arguments : string
}.

(** [response.choices[i].message]; a missing [tool_calls] is the empty list
    (both are false in the test of line 81). *)
Record ChatCompletionMessage : Type := {
  content : option string;
  tool_calls : list ToolCall
}.

Record ChatCompletion : Type := {
  choices : list ChatCompletionMessage
}.

(** An element of the [messages] list: one of the four dictionaries the
    program builds, or the message object of a response, appended as it is. *)
Inductive Message : Type :=
  | MsgSystem (text : string)
  | MsgUser (text : string)
  | MsgAssistant (text : option string)
  | MsgCompletion (m : ChatCompletionMessage)
  | MsgTool (tool_call_id : string) (name : string) (text : string).

(** [{"type": "function", "function": {"name", "description", "parameters"}}]. *)
Record Schema : Type := {
  fn_name : string;
  fn_description : option string;
  fn_parameters : json
}.

(** The closure [callable] that [MCPClient.call_tool] returns: it captures
    [self] (a reference to the client) and [tool_name]. *)
Record Callable : Type := {
  self_ref : nat;
  tool_name : string
}.

Record Tool : Type := {
  name : string;
  callable : Callable;
  schema : Schema
}.

(** The [tools] dictionary, in insertion order, keys unique. *)
Definition Tools : Type := list (string * Tool).

Fixpoint getitem (d : Tools) (k : string) : option Tool :=
  match d with
  | [] => None
  | (k', v) :: rest => if decide (k' = k) then Some v else getitem rest k
  end.

(** [d[k] = v]: an existing key keeps its position. *)
Fixpoint setitem (d : Tools) (k : string) (v : Tool) : Tools :=
  match d with
  | [] => [(k, v)]
  | (k', v') :: rest =>
      if decide (k' = k) then (k, v) :: rest else (k', v') :: setitem rest k v
  end.

Definition values (d : Tools) : list Tool := map snd d.

Record ChatRequest : Type := {
  req_model : string;
  req_messages : list Message;
  req_tools : option (list Schema);
  req_max_tokens : option Z;
  req_temperature : option Z
}.

Inductive ContentItem : Type :=
  | TextContent (text : string)
  | OtherContent.

(** Result of [session.call_tool]. *)
Record CallToolResult : Type := {
  result_content : list ContentItem
}.

(** One tool as a server advertises it. *)
Record ToolInfo : Type := {
  ti_name : string;
  ti_description : option string;
  ti_inputSchema : json
}.

(** What [session.list_tools()] returned, as far as line 115 looks at it. *)
Inductive ToolsData : Type :=
  | TupleData (second : list ToolInfo)
  | OtherData.

Record StdioServerParameters : Type := {
  command : string;
  args : list string;
  env : list (string * string)
}.

(** ** The world *)

(** Requests to the outside, in the order they were made.  A transport and
    a session are named by the number they got when they were created. *)
Inductive Event : Type :=
  | EvStdioEnter (t : nat) (p : StdioServerParameters)
  | EvStdioExit (t : nat)
  | EvSessionEnter (s : nat) (t : nat)
  | EvSessionInitialize (s : nat)
  | EvSessionExit (s : nat)
  | EvListTools (s : nat)
  | EvCallTool (s : nat) (tool : string) (arguments : kwargs)
  | EvChat (req : ChatRequest).

Record MCPClient : Type := {
  server_params : StdioServerParameters;
  session : option nat;
  _client : option nat
}.

Record World : Type := {
  lists : list (list Message);
  clients : list MCPClient;
  next_id : nat;
  trace : list Event
}.

(** The outside: each answer may depend on everything requested so far. *)
Record External : Type := {
  chat_completions_create : list Event -> ChatRequest -> Result ChatCompletion;
  stdio_client_aenter : list Event -> StdioServerParameters -> Result unit;
  ClientSession_aenter : list Event -> nat -> Result unit;
  ClientSession_initialize : list Event -> nat -> Result unit;
  ClientSession_list_tools : list Event -> nat -> Result ToolsData;
  ClientSession_call_tool : list Event -> nat -> string -> kwargs -> Result CallToolResult;
  ClientSession_aexit : list Event -> nat -> Result unit;
  stdio_client_aexit : list Event -> nat -> Result unit
}.

(** ** Coroutines *)

Definition M (A : Type) : Type := World -> Result A * World.

Definition ret {A} (a : A) : M A := fun w => (Ok a, w).

Definition raise {A} (e : Exn) : M A := fun w => (Raise e, w).

Definition bind {A B} (m : M A) (k : A -> M B) : M B :=
  fun w =>
    match m w with
    | (Ok a, w') => k a w'
    | (Raise e, w') => (Raise e, w')
    end.

Definition lift {A} (r : Result A) : M A := fun w => (r, w).

Declare Scope coroutine_scope.
Delimit Scope coroutine_scope with co.
Notation "x <- m ;; k" := (bind m (fun x => k))
  (at level 100, m at next level, right associativity) : coroutine_scope.
Notation "m ;; k" := (bind m (fun _ => k))
  (at level 100, right associativity) : coroutine_scope.
Local Open Scope coroutine_scope.

(** [xs[0]]. *)
Definition getitem0 {A} (xs : list A) : M A :=
  match xs with
  | x :: _ => ret x
  | [] => raise IndexError
  end.

(** A request to the outside: recorded, then answered from the trace before it. *)
Definition request {A} (ev : Event) (answer : list Event -> Result A) : M A :=
  fun w =>
    (answer (trace w),
     {| lists := lists w; clients := clients w; next_id := next_id w;
        trace := trace w ++ [ev] |}).

(** *** The store of lists *)

(** A reference that was never allocated reads as the empty list; the
    program only holds references it got from [new_list]. *)
Definition deref (l : nat) (w : World) : list Message :=
  default [] (lists w !! l).

Definition read_list (l : nat) : M (list Message) :=
  fun w => (Ok (deref l w), w).

Definition new_list (h : list Message) : M nat :=
  fun w =>
    (Ok (length (lists w)),
     {| lists := lists w ++ [h]; clients := clients w; next_id := next_id w;
        trace := trace w |}).

(** [l.extend(xs)], in place. *)
Definition extend (l : nat) (xs : list Message) : M unit :=
  fun w =>
    (Ok tt,
     {| lists := alter (fun h => h ++ xs) l (lists w); clients := clients w;
        next_id := next_id w; trace := trace w |}).

(** [l.append(x)], in place. *)
Definition append (l : nat) (x : Message) : M unit := extend l [x].

(** *** The store of clients *)

Definition blank_client : MCPClient :=
  {| server_params := {| command := ""; args := []; env := [] |};
     session := None; _client := None |}.

Definition get_client (c : nat) (w : World) : MCPClient :=
  default blank_client (clients w !! c).

Definition read_client (c : nat) : M MCPClient :=
  fun w => (Ok (get_client c w), w).

Definition update_client (c : nat) (f : MCPClient -> MCPClient) : M unit :=
  fun w =>
    (Ok tt,
     {| lists := lists w; clients := alter f c (clients w);
        next_id := next_id w; trace := trace w |}).

Definition set_session (s : option nat) (cl : MCPClient) : MCPClient :=
  {| server_params := server_params cl; session := s; _client := _client cl |}.

Definition set__client (t : option nat) (cl : MCPClient) : MCPClient :=
  {| server_params := server_params cl; session := session cl; _client := t |}.

(** A new transport or session object. *)
Definition fresh_id : M nat :=
  fun w =>
    (Ok (next_id w),
     {| lists := lists w; clients := clients w; next_id := S (next_id w);
        trace := trace w |}).

(** [MCPClient(server_params)], lines 23-26. *)
Definition __init__ (p : StdioServerParameters) : M nat :=
  fun w =>
    (Ok (length (clients w)),
     {| lists := lists w;
        clients := clients w ++ [{| server_params := p; session := None; _client := None |}];
        next_id := next_id w; trace := trace w |}).

Section Program.

(** The outside, and the configuration read at lines 12-18. *)
Variable E : External.
Variable json_loads : string -> Result json.
Variable MODEL : string.
(** [SYSTEM_PROMPT.format(tools=s)] as a function of [s]. *)
Variable SYSTEM_PROMPT_format : string -> Result string.

(** ** [MCPClient] *)

(** Lines 38-45. *)
Definition connect (self : nat) : M unit :=
  cl <- read_client self ;;
  t <- fresh_id ;;
  update_client self (set__client (Some t)) ;;
  request (EvStdioEnter t (server_params cl))
          (fun tr => stdio_client_aenter E tr (server_params cl)) ;;
  s <- fresh_id ;;
  request (EvSessionEnter s t) (fun tr => ClientSession_aenter E tr s) ;;
  update_client self (set_session (Some s)) ;;
  request (EvSessionInitialize s) (fun tr => ClientSession_initialize E tr s).

(** Lines 28-30. *)
Definition __aenter__ (self : nat) : M nat :=
  connect self ;; ret self.

(** Lines 32-36. *)
Definition __aexit__ (self : nat) : M unit :=
  cl <- read_client self ;;
  match session cl with
  | Some s => request (EvSessionExit s) (fun tr => ClientSession_aexit E tr s)
  | None => ret tt
  end ;;
  cl <- read_client self ;;
  match _client cl with
  | Some t => request (EvStdioExit t) (fun tr => stdio_client_aexit E tr t)
  | None => ret tt
  end.

(** Lines 47-50. *)
Definition get_available_tools (self : nat) : M ToolsData :=
  cl <- read_client self ;;
  match session cl with
  | None => raise (RuntimeError "Not connected to MCP server")
  | Some s => request (EvListTools s) (fun tr => ClientSession_list_tools E tr s)
  end.

(** Lines 52-61: the guard, then the closure. *)
Definition call_tool (self : nat) (tool_name : string) : M Callable :=
  cl <- read_client self ;;
  match session cl with
  | None => raise (RuntimeError "Not connected to MCP server")
  | Some _ => ret {| self_ref := self; tool_name := tool_name |}
  end.

(** Lines 56-59: the body of the closure, run when it is called.
    [self.session] is read at the time of the call. *)
Definition call (c : Callable) (arguments : kwargs) : M string :=
  cl <- read_client (self_ref c) ;;
  match session cl with
  | None => raise AttributeError
  | Some s =>
      response <- request (EvCallTool s (tool_name c) arguments)
                    (fun tr => ClientSession_call_tool E tr s (tool_name c) arguments) ;;
      first <- getitem0 (result_content response) ;;
      match first with
      | TextContent text => ret text
      | OtherContent => raise AttributeError
      end
  end.

(** [async with client as mcp_client: body]: [__aexit__] runs on both ways out
    of the body, and not when [__aenter__] raised; it returns nothing, so an
    exception of the body goes on unless [__aexit__] raises one itself. *)
Definition async_with {A} (self : nat) (body : nat -> M A) : M A :=
  fun w =>
    match __aenter__ self w with
    | (Raise e, w1) => (Raise e, w1)
    | (Ok mcp_client, w1) =>
        match body mcp_client w1 with
        | (Ok a, w2) =>
            match __aexit__ self w2 with
            | (Ok _, w3) => (Ok a, w3)
            | (Raise e, w3) => (Raise e, w3)
            end
        | (Raise e, w2) =>
            match __aexit__ self w2 with
            | (Ok _, w3) => (Raise e, w3)
            | (Raise e', w3) => (Raise e', w3)
            end
        end
    end.

(** ** [agent_loop] *)

(** Line 67: one line of the prompt per tool. *)
Definition tool_line (t : Tool) : string :=
  name t +:+ ": " +:+ fstr (fn_description (schema t)).

(** Lines 66-68: the text put in place of [{tools}]. *)
Definition tools_section (tools : Tools) : string :=
  join (String (ascii_of_N 10) "- ") (map tool_line (values tools)).

(** Lines 64-70: [messages or [...]].  [None] and the empty list are false. *)
Definition seed (tools : Tools) (messages : option nat) : M nat :=
  fun w =>
    match messages with
    | Some l =>
        match deref l w with
        | _ :: _ => (Ok l, w)
        | [] => (text <- lift (SYSTEM_PROMPT_format (tools_section tools)) ;;
                 new_list [MsgSystem text]) w
        end
    | None => (text <- lift (SYSTEM_PROMPT_format (tools_section tools)) ;;
               new_list [MsgSystem text]) w
    end.

(** Lines 73-79: the first request. *)
Definition first_request (tools : Tools) (h : list Message) : ChatRequest :=
  {| req_model := MODEL;
     req_messages := h;
     req_tools := match tools with
                  | [] => None
                  | _ :: _ => Some (map schema (values tools))
                  end;
     req_max_tokens := Some 4096%Z;
     req_temperature := Some 0%Z |}.

(** Line 89: the second request. *)
Definition second_request (h : list Message) : ChatRequest :=
  {| req_model := MODEL; req_messages := h; req_tools := None;
     req_max_tokens := None; req_temperature := None |}.

Definition create (req : ChatRequest) : M ChatCompletion :=
  request (EvChat req) (fun tr => chat_completions_create E tr req).

(** Line 84, passing [arguments] as keyword arguments: it must be a mapping. *)
Definition unpack (arguments : json) : M kwargs :=
  match arguments with
  | JDict items => ret items
  | _ => raise TypeError
  end.

(** Lines 83-88: the body of the loop, for one tool call. *)
Definition tool_round (tools : Tools) (messages : nat)
    (message : ChatCompletionMessage) (tool_call : ToolCall) : M unit :=
  arguments <- lift (json_loads (tc_function_arguments tool_call)) ;;
  tool <- match getitem tools (tc_function_name tool_call) with
          | Some t => ret t
          | None => raise (KeyError (tc_function_name tool_call))
          end ;;
  arguments <- unpack arguments ;;
  tool_result <- call (callable tool) arguments ;;
  extend messages
    [MsgCompletion message;
     MsgTool (tc_id tool_call) (tc_function_name tool_call) (json_dumps tool_result)].

(** Lines 82-88. *)
Fixpoint tool_rounds (tools : Tools) (messages : nat)
    (message : ChatCompletionMessage) (calls : list ToolCall) : M unit :=
  match calls with
  | [] => ret tt
  | tool_call :: rest =>
      tool_round tools messages message tool_call ;;
      tool_rounds tools messages message rest
  end.

(** Lines 63-92.  [response.choices[0].message] is read once per response
    here; the source reads it again at each use, with the same result. *)
Definition agent_loop (query : string) (tools : Tools) (messages : option nat)
    : M (option string * nat) :=
  messages <- seed tools messages ;;
  append messages (MsgUser query) ;;
  h <- read_list messages ;;
  response <- create (first_request tools h) ;;
  message <- getitem0 (choices response) ;;
  response <- match tool_calls message with
              | _ :: _ =>
                  tool_rounds tools messages message (tool_calls message) ;;
                  h <- read_list messages ;;
                  create (second_request h)
              | [] => ret response
              end ;;
  message <- getitem0 (choices response) ;;
  append messages (MsgAssistant (content message)) ;;
  ret (content message, messages).

(** Lines 64-79 alone: the turn up to the model's first response.  The
    properties below name the first response through it. *)
Definition first_exchange (query : string) (tools : Tools) (messages : option nat)
    : M (nat * ChatCompletion) :=
  messages <- seed tools messages ;;
  append messages (MsgUser query) ;;
  h <- read_list messages ;;
  response <- create (first_request tools h) ;;
  ret (messages, response).

(** Lines 81-92 alone: the turn from the first response on. *)
Definition finish (tools : Tools) (messages : nat) (response : ChatCompletion)
    : M (option string * nat) :=
  message <- getitem0 (choices response) ;;
  response <- match tool_calls message with
              | _ :: _ =>
                  tool_rounds tools messages message (tool_calls message) ;;
                  h <- read_list messages ;;
                  create (second_request h)
              | [] => ret response
              end ;;
  message <- getitem0 (choices response) ;;
  append messages (MsgAssistant (content message)) ;;
  ret (content message, messages).

(** ** [main] *)

(** One entry of [config["mcp_servers"]]. *)
Record ServerConfig : Type := {
  server_name : string;
  server_command : string;
  server_args : list string;
  server_env : list (string * string)
}.

Variable mcp_servers : list ServerConfig.

(** Lines 116-128: the tools of one server go into the dictionary. *)
Fixpoint register_tools (mcp_client : nat) (tools : Tools) (found : list ToolInfo)
    : M Tools :=
  match found with
  | [] => ret tools
  | tool :: rest =>
      c <- call_tool mcp_client (ti_name tool) ;;
      register_tools mcp_client
        (setitem tools (ti_name tool)
           {| name := ti_name tool;
              callable := c;
              schema := {| fn_name := ti_name tool;
                           fn_description := ti_description tool;
                           fn_parameters := ti_inputSchema tool |} |})
        rest
  end.

(** Lines 112-128: the body of the [async with]. *)
Definition discover (tools : Tools) (mcp_client : nat) : M Tools :=
  tools_data <- get_available_tools mcp_client ;;
  match tools_data with
  | TupleData second => register_tools mcp_client tools second
  | OtherData => ret tools
  end.

(** Lines 102-128. *)
Fixpoint setup (servers : list ServerConfig) (mcp_clients : list nat) (tools : Tools)
    : M (list nat * Tools) :=
  match servers with
  | [] => ret (mcp_clients, tools)
  | server :: rest =>
      client <- __init__ {| command := server_command server;
                                  args := server_args server;
                                  env := server_env server |} ;;
      tools <- async_with client (discover tools) ;;
      setup rest (mcp_clients ++ [client]) tools
  end.

(** What one call of [input()] does. *)
Inductive Input : Type :=
  | Line (text : string)
  | KeyboardInterrupt
  | InputError (e : Exn).

(** Line 136. *)
Definition is_quit (user_input : string) : bool :=
  bool_decide (lower user_input ∈ ["quit"; "exit"; "q"]).

Inductive Status : Type :=
  | Exited
  | AtPrompt.

(** Lines 133-144, run on the inputs given so far: the loop has [Exited],
    or it is [AtPrompt] waiting for the next one.  The second component is
    the variable [messages] of [main]. *)
Fixpoint prompt_loop (inputs : list Input) (tools : Tools) (messages : option nat)
    (w : World) : Status * option nat * World :=
  match inputs with
  | [] => (AtPrompt, messages, w)
  | KeyboardInterrupt :: _ => (Exited, messages, w)
  | InputError _ :: rest => prompt_loop rest tools messages w
  | Line user_input :: rest =>
      if is_quit user_input then (Exited, messages, w)
      else
        match agent_loop user_input tools messages w with
        | (Ok (_, messages'), w') => prompt_loop rest tools (Some messages') w'
        | (Raise _, w') => prompt_loop rest tools messages w'
        end
  end.

Inductive Outcome : Type :=
  | Startup_failed (e : Exn)
  | Session (status : Status) (tools : Tools) (messages : option nat).

(** Lines 94-148. *)
Definition main (inputs : list Input) (w : World) : Outcome * World :=
  match setup mcp_servers [] [] w with
  | (Raise e, w') => (Startup_failed e, w')
  | (Ok (_, tools), w') =>
      let '(status, messages, w'') := prompt_loop inputs tools None w' in
      (Session status tools messages, w'')
  end.

Definition start : World :=
  {| lists := []; clients := []; next_id := 0; trace := [] |}.

(** The history that [main] will pass to the next turn. *)
Definition history (messages : option nat) (w : World) : list Message :=
  match messages with
  | Some l => deref l w
  | None => []
  end.

(** The two messages one tool call adds (lines 85-88), given the text its
    handle returned. *)
Definition round_messages (message : ChatCompletionMessage) (tool_call : ToolCall)
    (text : string) : list Message :=
  [MsgCompletion message;
   MsgTool (tc_id tool_call) (tc_function_name tool_call) (json_dumps text)].

Definition is_call (ev : Event) : bool :=
  match ev with EvCallTool _ _ _ => true | _ => false end.

(** [ev] is a [call_tool] request to the session that one of the clients
    [cs] holds. *)
Definition call_to (cs : list MCPClient) (ev : Event) : Prop :=
  match ev with
  | EvCallTool s _ _ =>
      exists c, session (default blank_client (cs !! c)) = Some s
  | _ => False
  end.

(** The chat-completion requests of a trace, in order. *)
Fixpoint chat_requests (tr : list Event) : list ChatRequest :=
  match tr with
  | [] => []
  | EvChat req :: rest => req :: chat_requests rest
  | _ :: rest => chat_requests rest
  end.

(** The correlation ids of the tool-result messages of a history, in order. *)
Fixpoint tool_result_ids (h : list Message) : list string :=
  match h with
  | [] => []
  | MsgTool id _ _ :: rest => id :: tool_result_ids rest
  | _ :: rest => tool_result_ids rest
  end.

(** Whether every [call_tool] request of a trace goes to a session that
    has been entered and not exited since; [live] are the sessions entered
    and not exited before the trace. *)
Fixpoint calls_in_scope (live : list nat) (tr : list Event) : bool :=
  match tr with
  | [] => true
  | EvSessionEnter s _ :: rest => calls_in_scope (s :: live) rest
  | EvSessionExit s :: rest => calls_in_scope (filter (fun s' => s' <> s) live) rest
  | EvCallTool s _ _ :: rest => bool_decide (s ∈ live) && calls_in_scope live rest
  | _ :: rest => calls_in_scope live rest
  end.

(** A request of a turn: a chat-completion request, or a [call_tool]
    request to a session one of the clients holds. *)
Definition turn_event (cs : list MCPClient) (ev : Event) : Prop :=
  (exists req, ev = EvChat req) \/ call_to cs ev.

(** The world after a [connect] that got as far as storing the session:
    the client holds transport [t] and session [s]. *)
Definition with_session (self t s : nat) (w : World) (tr : list Event) : World :=
  {| lists := lists w;
     clients := alter (set_session (Some s)) self
                  (alter (set__client (Some t)) self (clients w));
     next_id := S (S (next_id w));
     trace := tr |}.

(** Every [call_tool] request of the trace comes after the exit of the
    session it goes to. *)
Definition late_calls (tr : list Event) : Prop :=
  forall i s tool arguments,
    tr !! i = Some (EvCallTool s tool arguments) ->
    exists j, j < i /\ tr !! j = Some (EvSessionExit s).

(** Every session held by a client has been exited. *)
Definition all_exited (w : World) : Prop :=
  forall c cl s,
    clients w !! c = Some cl -> session cl = Some s ->
    exists j, trace w !! j = Some (EvSessionExit s).

(** The trace of [w'] is the trace of [w] and then requests that are not
    [call_tool] requests. *)
Definition grows_quietly (w w' : World) : Prop :=
  exists evs, trace w' = trace w ++ evs /\ Forall (fun ev => is_call ev = false) evs.

(** An entry of the registry as [main] writes it (lines 117-128): the key
    is the tool's name, in the entry, in its schema and in its handle. *)
Definition entry_named (kt : string * Tool) : Prop :=
  name kt.2 = kt.1 /\ fn_name (schema kt.2) = kt.1 /\
  tool_name (callable kt.2) = kt.1.

Definition wf_tools (tools : Tools) : Prop :=
  NoDup (map fst tools) /\ Forall entry_named tools.

(** The client of the handle of every entry holds a session. *)
Definition handles_live (tools : Tools) (w : World) : Prop :=
  Forall (fun kt : string * Tool =>
            exists s, session (get_client (self_ref (callable kt.2)) w) = Some s)
         tools.

(** The requests of startup: everything but chat-completion and
    [call_tool] requests. *)
Definition startup_event (ev : Event) : bool :=
  match ev with
  | EvChat _ | EvCallTool _ _ _ => false
  | _ => true
  end.

(** Every client that holds a session in [w] holds one in [w']. *)
Definition keeps_sessions (w w' : World) : Prop :=
  forall c s,
    session (get_client c w) = Some s ->
    exists s', session (get_client c w') = Some s'.

(** The trace of [w'] is the trace of [w] and then requests of startup. *)
Definition grows_by_startup (w w' : World) : Prop :=
  exists evs,
    trace w' = trace w ++ evs /\ Forall (fun ev => startup_event ev = true) evs.

(** An input that ends the prompt loop: an interrupt, or a quit word. *)
Definition ends_session (input : Input) : bool :=
  match input with
  | KeyboardInterrupt => true
  | Line text => is_quit text
  | InputError _ => false
  end.

(** * Properties *)

(** ** [json.dumps] *)

Lemma string_length_append (s1 s2 : string) :
  String.length (s1 +:+ s2) = String.length s1 + String.length s2.
Proof. induction s1 as [|c s1 IH]; simpl; [done|]. by rewrite IH. Qed.

Lemma json_escape_length c : 1 <= String.length (json_escape c).
Proof.
  unfold json_escape, u_escape.
  repeat (match goal with |- context [if ?b then _ else _] => destruct b end);
    simpl; lia.
Qed.

Lemma json_escape_all_length s :
  String.length s <= String.length (json_escape_all s).
Proof.
  induction s as [|c s IH]; simpl; [done|].
  rewrite string_length_append. pose proof (json_escape_length c). lia.
Qed.

(** The encoding of a string is never the string itself: it is longer by
    the two double quotes at least. *)
Lemma json_dumps_not_verbatim s : json_dumps s <> s.
Proof.
  intros Heq. apply (f_equal String.length) in Heq.
  unfold json_dumps in Heq. simpl in Heq.
  rewrite string_length_append in Heq. simpl in Heq.
  pose proof (json_escape_all_length s). lia.
Qed.

(** ** Traces *)

Lemma chat_requests_app tr1 tr2 :
  chat_requests (tr1 ++ tr2) = chat_requests tr1 ++ chat_requests tr2.
Proof.
  induction tr1 as [|ev tr1 IH]; [done|].
  destruct ev; simpl; rewrite ?IH; done.
Qed.

Lemma chat_requests_calls cs evs :
  Forall (call_to cs) evs -> chat_requests evs = [].
Proof.
  induction 1 as [|ev evs Hev _ IH]; [done|].
  destruct ev; simpl in *; done.
Qed.

Lemma tool_result_ids_app h1 h2 :
  tool_result_ids (h1 ++ h2) = tool_result_ids h1 ++ tool_result_ids h2.
Proof.
  induction h1 as [|m h1 IH]; [done|].
  destruct m; simpl; rewrite ?IH; done.
Qed.

Lemma tool_result_ids_rounds message calls texts :
  length texts = length calls ->
  tool_result_ids (concat (zip_with (round_messages message) calls texts))
  = map tc_id calls.
Proof.
  revert texts. induction calls as [|tc calls IH]; intros [|t texts] Hlen;
    simpl in *; try done.
  f_equal. apply IH. lia.
Qed.

(** ** The handle *)

(** Calling a handle changes no list and no client; it sends at most one
    request, a [call_tool] of the captured tool name with the arguments. *)
Lemma call_frame c arguments w r w' :
  call c arguments w = (r, w') ->
  lists w' = lists w /\ clients w' = clients w /\ next_id w' = next_id w /\
  (trace w' = trace w \/
   exists s, session (get_client (self_ref c) w) = Some s /\
             trace w' = trace w ++ [EvCallTool s (tool_name c) arguments]).
Proof.
  unfold call, bind, read_client, request.
  destruct (session (get_client (self_ref c) w)) as [s|] eqn:Hs; simpl.
  - destruct (ClientSession_call_tool E (trace w) s (tool_name c) arguments)
      as [res|e]; simpl.
    + destruct (result_content res) as [|[text|] more]; simpl;
        intros [= <- <-]; simpl; eauto 10.
    + intros [= <- <-]; simpl; eauto 10.
  - intros [= <- <-]; auto.
Qed.

(** ** The tool rounds *)

(** One pass through the body of the loop: either it raises and no list
    has changed, or the handle returned some text and the two messages for
    this call are at the end of [messages]. *)
Lemma tool_round_inv tools l message tc w r w' :
  tool_round tools l message tc w = (r, w') ->
  clients w' = clients w /\ next_id w' = next_id w /\
  (exists evs, trace w' = trace w ++ evs /\ Forall (call_to (clients w)) evs) /\
  ((exists e, r = Raise e /\ lists w' = lists w) \/
   (exists text, r = Ok tt /\
      lists w' = alter (fun h => h ++ round_messages message tc text) l (lists w))).
Proof.
  unfold tool_round, bind, lift.
  destruct (json_loads (tc_function_arguments tc)) as [a|e].
  2:{ intros [= <- <-]. repeat split; eauto.
      exists []. by rewrite app_nil_r. }
  destruct (getitem tools (tc_function_name tc)) as [tool|]; simpl.
  2:{ intros [= <- <-]. repeat split; eauto.
      exists []. by rewrite app_nil_r. }
  assert (Hstop : forall e : Exn,
    (Raise e, w) = (r, w') ->
    clients w' = clients w /\ next_id w' = next_id w /\
    (exists evs, trace w' = trace w ++ evs /\ Forall (call_to (clients w)) evs) /\
    ((exists e, r = Raise e /\ lists w' = lists w) \/
     (exists text, r = Ok tt /\
        lists w' = alter (fun h => h ++ round_messages message tc text) l (lists w)))).
  { intros e [= <- <-]. repeat split; eauto.
    exists []. by rewrite app_nil_r. }
  destruct a as [| | | | | |kw]; simpl; try apply Hstop.
  clear Hstop.
  destruct (call (callable tool) kw w) as [rc wc] eqn:Hcall.
  destruct (call_frame _ _ _ _ _ Hcall) as (Hl & Hc & Hn & Ht).
  assert (Hevs : exists evs,
            trace wc = trace w ++ evs /\ Forall (call_to (clients w)) evs).
  { destruct Ht as [Ht|(s & Hs & Ht)].
    - exists []. by rewrite app_nil_r.
    - exists [EvCallTool s (tool_name (callable tool)) kw]. split; [done|].
      constructor; [|done]. by exists (self_ref (callable tool)). }
  destruct rc as [text|e].
  - unfold extend. intros [= <- <-]; simpl.
    repeat split; auto. right. exists text. by rewrite Hl.
  - intros [= <- <-]. repeat split; eauto.
Qed.

(** The whole loop: the messages of the calls that went through are at the
    end of [messages], in the order of the calls; when the loop ends
    without an exception, these are all the calls.  Nothing is sent but
    [call_tool] requests to the sessions the clients hold. *)
Lemma tool_rounds_inv tools l message calls w r w' :
  tool_rounds tools l message calls w = (r, w') ->
  exists texts evs,
    lists w' =
      alter (fun h => h ++ concat (zip_with (round_messages message) calls texts))
            l (lists w) /\
    clients w' = clients w /\ next_id w' = next_id w /\
    trace w' = trace w ++ evs /\ Forall (call_to (clients w)) evs /\
    length texts <= length calls /\
    (is_ok r = true -> length texts = length calls).
Proof.
  revert w. induction calls as [|tc calls IH]; intros w; simpl.
  - intros [= <- <-]. exists [], []. rewrite app_nil_r.
    repeat split; auto.
    symmetry. apply list_alter_id. intros h. apply app_nil_r.
  - unfold bind.
    destruct (tool_round tools l message tc w) as [r1 w1] eqn:H1.
    destruct (tool_round_inv _ _ _ _ _ _ _ H1)
      as (Hc & Hn & (evs1 & Ht & Hcalls) & Hcase).
    destruct Hcase as [(e & -> & Hl)|(text & -> & Hl)].
    + intros [= <- <-]. exists [], evs1. simpl.
      repeat split; auto; try lia; try discriminate.
      rewrite Hl. symmetry. apply list_alter_id. intros h. apply app_nil_r.
    + intros Hrest. destruct (IH _ Hrest)
        as (texts & evs & Hl' & Hc' & Hn' & Ht' & Hcalls' & Hle & Hok).
      exists (text :: texts), (evs1 ++ evs). simpl.
      repeat split; try congruence.
      * rewrite Hl', Hl, list_alter_alter_eq.
        apply list_alter_ext; [|done]. intros h _. simpl.
        by rewrite <- app_assoc.
      * by rewrite Ht', Ht, app_assoc.
      * apply Forall_app. split; [done|]. by rewrite <- Hc.
      * lia.
      * intros Hr. f_equal. auto.
Qed.

Lemma tool_rounds_app tools l message calls1 calls2 w :
  tool_rounds tools l message (calls1 ++ calls2) w =
  (tool_rounds tools l message calls1 ;; tool_rounds tools l message calls2) w.
Proof.
  revert w. induction calls1 as [|tc calls1 IH]; intros w; [done|].
  simpl. unfold bind in *.
  destruct (tool_round tools l message tc w) as [[[]|e] w1]; [|done].
  apply IH.
Qed.

(** ** The first exchange *)

Lemma deref_alter f l w w' :
  l < length (lists w) ->
  lists w' = alter f l (lists w) ->
  deref l w' = f (deref l w).
Proof.
  intros Hl Hw'. unfold deref. rewrite Hw', list_lookup_alter_eq.
  destruct (lookup_lt_is_Some_2 _ _ Hl) as [h ->]. done.
Qed.

Lemma deref_extend xs l w w' :
  l < length (lists w) ->
  lists w' = alter (fun h => h ++ xs) l (lists w) ->
  deref l w' = deref l w ++ xs.
Proof. apply (deref_alter (fun h => h ++ xs)). Qed.

(** Seeding sends nothing and leaves the clients alone; the list it
    returns exists and is not empty: it is the caller's own list, or a new
    one holding the system message. *)
Lemma seed_inv tools messages w l w1 :
  seed tools messages w = (Ok l, w1) ->
  clients w1 = clients w /\ next_id w1 = next_id w /\ trace w1 = trace w /\
  l < length (lists w1) /\
  ((messages = Some l /\ w1 = w /\ deref l w <> []) \/
   (exists text,
      SYSTEM_PROMPT_format (tools_section tools) = Ok text /\
      l = length (lists w) /\ lists w1 = lists w ++ [[MsgSystem text]])).
Proof.
  assert (Hnew : (text <- lift (SYSTEM_PROMPT_format (tools_section tools)) ;;
                  new_list [MsgSystem text]) w = (Ok l, w1) ->
    clients w1 = clients w /\ next_id w1 = next_id w /\ trace w1 = trace w /\
    l < length (lists w1) /\
    ((messages = Some l /\ w1 = w /\ deref l w <> []) \/
     (exists text,
        SYSTEM_PROMPT_format (tools_section tools) = Ok text /\
        l = length (lists w) /\ lists w1 = lists w ++ [[MsgSystem text]]))).
  { unfold bind, lift, new_list.
    destruct (SYSTEM_PROMPT_format (tools_section tools)) as [text|e];
      [|discriminate].
    intros [= <- <-]; simpl. repeat split; auto.
    - rewrite length_app; simpl; lia.
    - right. by exists text. }
  unfold seed. destruct messages as [l0|]; [|exact Hnew].
  destruct (deref l0 w) as [|m h] eqn:Hd; [exact Hnew|].
  intros [= <- <-]. repeat split; auto.
  - unfold deref in Hd. destruct (lists w !! l0) as [h0|] eqn:Hl0; [|done].
    apply lookup_lt_is_Some_1. eauto.
  - left. rewrite Hd. done.
Qed.

(** The first exchange sends the one request of lines 73-79, carrying the
    history with the user's message at its end. *)
Lemma first_exchange_inv query tools messages w l response w2 :
  first_exchange query tools messages w = (Ok (l, response), w2) ->
  exists w1,
    seed tools messages w = (Ok l, w1) /\
    deref l w2 = deref l w1 ++ [MsgUser query] /\
    l < length (lists w2) /\
    clients w2 = clients w /\
    trace w2 = trace w ++ [EvChat (first_request tools (deref l w2))] /\
    chat_completions_create E (trace w) (first_request tools (deref l w2))
    = Ok response.
Proof.
  unfold first_exchange, bind.
  destruct (seed tools messages w) as [[l1|e] w1] eqn:Hseed; [|discriminate].
  destruct (seed_inv _ _ _ _ _ Hseed) as (Hc & Hn & Ht & Hlen & _).
  unfold append, extend, read_list, create, request; simpl.
  rewrite (deref_extend [MsgUser query] l1 w1) by done.
  destruct (chat_completions_create E (trace w1) _) as [resp|e] eqn:Hchat;
    [|discriminate].
  unfold ret. intros [= <- <- <-]. exists w1. simpl.
  rewrite (deref_extend [MsgUser query] l1 w1) by done.
  rewrite length_alter, Hc, <- Ht. repeat split; auto.
Qed.

Lemma agent_loop_split query tools messages w :
  agent_loop query tools messages w =
  (p <- first_exchange query tools messages ;; finish tools p.1 p.2) w.
Proof.
  unfold agent_loop, first_exchange, finish, bind.
  destruct (seed tools messages w) as [[l|e] w1]; [|done].
  destruct (append l (MsgUser query) w1) as [[[]|e] w2]; [|done].
  destruct (read_list l w2) as [[h|e] w3]; [|done].
  destruct (create (first_request tools h) w3) as [[resp|e] w4]; done.
Qed.

(** ** From the first response to the end of the turn *)

(** A turn that ends without an exception has put, after what the list
    held when the first response came, the two messages of every tool call
    in turn and then the final answer. *)
Lemma finish_ok_inv tools l response message rest w2 text l' w' :
  l < length (lists w2) ->
  choices response = message :: rest ->
  finish tools l response w2 = (Ok (text, l'), w') ->
  l' = l /\
  exists texts,
    length texts = length (tool_calls message) /\
    deref l w' =
      deref l w2
      ++ concat (zip_with (round_messages message) (tool_calls message) texts)
      ++ [MsgAssistant text].
Proof.
  intros Hl Hch. unfold finish, bind. rewrite Hch; simpl.
  destruct (tool_calls message) as [|tc calls] eqn:Hcalls.
  - simpl. rewrite Hch; simpl. intros [= <- <- <-]. split; [done|].
    exists []. split; [done|]. simpl.
    by apply deref_extend.
  - destruct (tool_rounds tools l message (tc :: calls) w2)
      as [[[]|e] w3] eqn:Hr; [|discriminate].
    destruct (tool_rounds_inv _ _ _ _ _ _ _ Hr)
      as (texts & evs & Hl3 & _ & _ & _ & _ & _ & Hlen).
    unfold read_list, create, request; simpl.
    destruct (chat_completions_create E (trace w3) _) as [resp2|e]; [|discriminate].
    simpl. destruct (choices resp2) as [|m2 r2]; [discriminate|]. simpl.
    intros [= <- <- <-]. split; [done|].
    exists texts. split; [by apply Hlen|].
    erewrite deref_extend; [| |reflexivity].
    + erewrite (deref_extend _ l w2 w3); [|done|exact Hl3].
      by rewrite <- app_assoc.
    + by rewrite Hl3, length_alter.
Qed.

(** When the first response asks for tools and the loop over them raises,
    the turn raises the same exception in the same world. *)
Lemma finish_rounds_raise tools l response message rest w2 e w4 :
  choices response = message :: rest ->
  tool_rounds tools l message (tool_calls message) w2 = (Raise e, w4) ->
  finish tools l response w2 = (Raise e, w4).
Proof.
  intros Hch Hr. unfold finish, bind. rewrite Hch; simpl.
  destruct (tool_calls message) as [|tc calls].
  - simpl in Hr. discriminate.
  - by rewrite Hr.
Qed.

(** ** The turn *)

(** C7: when the first response asks for no tool, the turn sends that one
    chat-completion request and no other request, returns the text of the
    first response, and leaves it as an assistant message at the end of the
    history, after the user's message. *)
Theorem no_tool_calls_one_request
    query tools messages w l response w2 message rest :
  first_exchange query tools messages w = (Ok (l, response), w2) ->
  choices response = message :: rest ->
  tool_calls message = [] ->
  exists w',
    agent_loop query tools messages w = (Ok (content message, l), w') /\
    trace w' = trace w ++ [EvChat (first_request tools (deref l w2))] /\
    chat_requests (trace w') =
      chat_requests (trace w) ++ [first_request tools (deref l w2)] /\
    deref l w' = deref l w2 ++ [MsgAssistant (content message)].
Proof.
  intros Hfirst Hch Hcalls.
  destruct (first_exchange_inv _ _ _ _ _ _ _ Hfirst)
    as (w1 & _ & _ & Hl & _ & Ht & _).
  eexists. split.
  - rewrite agent_loop_split. unfold bind at 1. rewrite Hfirst; simpl.
    unfold finish, bind. rewrite Hch; simpl. rewrite Hcalls; simpl.
    rewrite Hch; simpl. reflexivity.
  - simpl. repeat split.
    + exact Ht.
    + by rewrite Ht, chat_requests_app.
    + by apply deref_extend.
Qed.

(** C5: in a turn that runs to its end, the history keeps what it held
    when the first response came, and the tool-result messages added after
    that are as many as the requests of the first response and carry their
    ids in the same order. *)
Theorem tool_results_follow_requests
    query tools messages w l response w2 message rest text l' w' :
  first_exchange query tools messages w = (Ok (l, response), w2) ->
  choices response = message :: rest ->
  agent_loop query tools messages w = (Ok (text, l'), w') ->
  l' = l /\
  take (length (deref l w2)) (deref l w') = deref l w2 /\
  length (tool_result_ids (drop (length (deref l w2)) (deref l w')))
  = length (tool_calls message) /\
  tool_result_ids (drop (length (deref l w2)) (deref l w'))
  = map tc_id (tool_calls message).
Proof.
  intros Hfirst Hch Hturn.
  destruct (first_exchange_inv _ _ _ _ _ _ _ Hfirst)
    as (w1 & _ & _ & Hl & _ & _ & _).
  rewrite agent_loop_split in Hturn. unfold bind at 1 in Hturn.
  rewrite Hfirst in Hturn; simpl in Hturn.
  destruct (finish_ok_inv _ _ _ _ _ _ _ _ _ Hl Hch Hturn)
    as (-> & texts & Hlen & ->).
  rewrite take_app_length, drop_app_length, tool_result_ids_app.
  rewrite (tool_result_ids_rounds _ _ _ Hlen); simpl.
  rewrite app_nil_r, length_map. done.
Qed.

(** C6: when the handle of one of the requested tools raises, the calls
    before it having gone through, the turn ends with that exception, and
    the first chat-completion request is the only one the turn has sent. *)
Theorem failed_handle_ends_turn
    query tools messages w l response w2 message rest
    before tool_call after w3 arguments tool e w4 :
  first_exchange query tools messages w = (Ok (l, response), w2) ->
  choices response = message :: rest ->
  tool_calls message = before ++ tool_call :: after ->
  tool_rounds tools l message before w2 = (Ok tt, w3) ->
  json_loads (tc_function_arguments tool_call) = Ok (JDict arguments) ->
  getitem tools (tc_function_name tool_call) = Some tool ->
  call (callable tool) arguments w3 = (Raise e, w4) ->
  agent_loop query tools messages w = (Raise e, w4) /\
  chat_requests (trace w4) =
    chat_requests (trace w) ++ [first_request tools (deref l w2)].
Proof.
  intros Hfirst Hch Hcalls Hbefore Hjson Hget Hcall.
  destruct (first_exchange_inv _ _ _ _ _ _ _ Hfirst)
    as (w1 & _ & _ & _ & _ & Ht2 & _).
  split.
  - rewrite agent_loop_split. unfold bind at 1. rewrite Hfirst; simpl.
    apply (finish_rounds_raise _ _ _ _ _ _ _ _ Hch).
    rewrite Hcalls, tool_rounds_app. unfold bind at 1. rewrite Hbefore.
    simpl. unfold bind at 1. unfold tool_round, bind, lift.
    rewrite Hjson, Hget; simpl. by rewrite Hcall.
  - destruct (tool_rounds_inv _ _ _ _ _ _ _ Hbefore)
      as (_ & evs & _ & _ & _ & Ht3 & Hevs & _).
    destruct (call_frame _ _ _ _ _ Hcall) as (_ & _ & _ & Ht4).
    assert (Hsame : chat_requests (trace w4) = chat_requests (trace w3)).
    { destruct Ht4 as [->|(s & _ & ->)]; [done|].
      rewrite chat_requests_app; simpl. by rewrite app_nil_r. }
    rewrite Hsame, Ht3, Ht2, !chat_requests_app, (chat_requests_calls _ evs Hevs).
    simpl. by rewrite app_nil_r.
Qed.

(** A handle that returns has sent exactly one request, for the tool name
    it captured and with the arguments it was given. *)
Lemma call_ok_trace c arguments w text w' :
  call c arguments w = (Ok text, w') ->
  exists s, session (get_client (self_ref c) w) = Some s /\
            trace w' = trace w ++ [EvCallTool s (tool_name c) arguments].
Proof.
  intros Hcall. pose proof Hcall as Hframe. apply call_frame in Hframe.
  destruct Hframe as (_ & _ & _ & [Ht|Ht]); [|exact Ht].
  exfalso. revert Hcall. unfold call, bind, read_client, request.
  destruct (session (get_client (self_ref c) w)) as [s|]; simpl; [|discriminate].
  destruct (ClientSession_call_tool E (trace w) s (tool_name c) arguments)
    as [res|e0]; simpl; [|discriminate].
  destruct (result_content res) as [|[t|] more]; simpl; try discriminate.
  intros [= _ <-]. simpl in Ht.
  apply (f_equal length) in Ht. rewrite length_app in Ht. simpl in Ht. lia.
Qed.

(** C3, as the code has it: when the registry holds tool [X] and the first
    response asks for [X] alone, the handle registered for [X] is called
    once, with the decoded arguments and nothing else, and the content of
    the tool-result message is [json.dumps] of the text the handle
    returned: that text between double quotes, with its special characters
    escaped. *)
Theorem requested_tool_called_once_result_encoded
    query tools messages w l response w2 message rest
    tool_call X arguments tool text w3 response2 message2 rest2 :
  first_exchange query tools messages w = (Ok (l, response), w2) ->
  choices response = message :: rest ->
  tool_calls message = [tool_call] ->
  tc_function_name tool_call = X ->
  getitem tools X = Some tool ->
  json_loads (tc_function_arguments tool_call) = Ok (JDict arguments) ->
  call (callable tool) arguments w2 = (Ok text, w3) ->
  chat_completions_create E (trace w3)
    (second_request (deref l w2 ++ round_messages message tool_call text))
  = Ok response2 ->
  choices response2 = message2 :: rest2 ->
  exists s w',
    agent_loop query tools messages w = (Ok (content message2, l), w') /\
    trace w' =
      trace w2
      ++ [EvCallTool s (tool_name (callable tool)) arguments;
          EvChat (second_request
                    (deref l w2 ++ round_messages message tool_call text))] /\
    deref l w' =
      deref l w2
      ++ [MsgCompletion message;
          MsgTool (tc_id tool_call) X (json_dumps text);
          MsgAssistant (content message2)].
Proof.
  intros Hfirst Hch Hcalls HX Hget Hjson Hcall Hchat2 Hch2. subst X.
  destruct (first_exchange_inv _ _ _ _ _ _ _ Hfirst)
    as (w1 & _ & _ & Hl & _ & _ & _).
  destruct (call_ok_trace _ _ _ _ _ Hcall) as (s & _ & Ht3).
  destruct (call_frame _ _ _ _ _ Hcall) as (Hl3 & _ & _ & _).
  pose (w3' :=
    {| lists := alter (fun h => h ++ round_messages message tool_call text)
                      l (lists w3);
       clients := clients w3; next_id := next_id w3; trace := trace w3 |}).
  assert (Hl3' : l < length (lists w3')).
  { simpl. by rewrite length_alter, Hl3. }
  assert (Hd : deref l w3' = deref l w2 ++ round_messages message tool_call text).
  { apply deref_extend; [done|]. simpl. by rewrite Hl3. }
  exists s.
  exists {| lists := alter (fun h => h ++ [MsgAssistant (content message2)])
                           l (lists w3');
            clients := clients w3; next_id := next_id w3;
            trace := trace w3
                     ++ [EvChat (second_request
                           (deref l w2 ++ round_messages message tool_call text))] |}.
  split; [|split].
  - rewrite agent_loop_split. unfold bind at 1. rewrite Hfirst; simpl.
    unfold finish, bind. rewrite Hch; simpl. rewrite Hcalls; simpl.
    unfold bind, tool_round, bind, lift. rewrite Hjson, Hget; simpl.
    rewrite Hcall; simpl. unfold bind, read_list, create, request; simpl.
    fold (round_messages message tool_call text). fold w3'.
    rewrite Hd, Hchat2; simpl. rewrite Hch2; simpl. reflexivity.
  - simpl. rewrite Ht3, <- app_assoc. done.
  - rewrite (deref_extend [MsgAssistant (content message2)] l w3') by done.
    rewrite Hd, <- app_assoc. done.
Qed.

(** With an empty registry no requested tool can be found: the loop over
    a non-empty list of calls raises at once and sends nothing. *)
Lemma tool_rounds_empty_registry l message tool_call calls w :
  exists e, tool_rounds [] l message (tool_call :: calls) w = (Raise e, w).
Proof.
  simpl. unfold bind, tool_round, bind, lift.
  destruct (json_loads (tc_function_arguments tool_call)) as [a|e]; simpl; eauto.
Qed.

(** C8: in a turn with an empty registry, the text put in place of
    [{tools}] is empty, so a history that starts afresh holds the system
    prompt formatted with the empty text; and the turn sends one request,
    the first chat-completion request, whose [tools] is [None]. *)
Theorem empty_registry_no_manifest query messages w l w1 :
  seed [] messages w = (Ok l, w1) ->
  tools_section [] = "" /\
  (history messages w = [] ->
   exists text, SYSTEM_PROMPT_format "" = Ok text /\ deref l w1 = [MsgSystem text]) /\
  exists req,
    trace (agent_loop query [] messages w).2 = trace w ++ [EvChat req] /\
    req_messages req = deref l w1 ++ [MsgUser query] /\
    req_tools req = None.
Proof.
  intros Hseed.
  destruct (seed_inv _ _ _ _ _ Hseed) as (_ & _ & Ht1 & Hl1 & Hcase).
  split; [done|]. split.
  - intros Hfresh. destruct Hcase as [(-> & _ & Hne)|(text & Hfmt & -> & Hls)].
    + simpl in Hfresh. done.
    + exists text. split; [exact Hfmt|].
      unfold deref. rewrite Hls, list_lookup_middle; done.
  - exists (first_request [] (deref l w1 ++ [MsgUser query])).
    split; [|done].
    unfold agent_loop, bind. rewrite Hseed.
    unfold append, extend, read_list, create, request; simpl.
    rewrite (deref_extend [MsgUser query] l w1) by done.
    destruct (chat_completions_create E (trace w1) _) as [resp|e]; simpl;
      [|by rewrite Ht1].
    destruct (choices resp) as [|message rest] eqn:Hch; simpl; [by rewrite Ht1|].
    destruct (tool_calls message) as [|tc calls].
    + simpl. rewrite Hch; simpl. by rewrite Ht1.
    + match goal with |- context [tool_rounds [] l message (tc :: calls) ?w0] =>
        destruct (tool_rounds_empty_registry l message tc calls w0) as [e ->]
      end.
      simpl. by rewrite Ht1.
Qed.

(** ** [MCPClient] *)

Lemma with_session_lookup self t s w tr cl :
  clients w !! self = Some cl ->
  clients (with_session self t s w tr) !! self
  = Some {| server_params := server_params cl; session := Some s;
            _client := Some t |}.
Proof.
  intros Hcl. simpl. rewrite !list_lookup_alter_eq, Hcl. done.
Qed.

(** [connect] when the transport, the session and the handshake all go
    through: whatever the client held before, it now holds the new
    transport and the new session. *)
Lemma connect_ok self w cl :
  clients w !! self = Some cl ->
  let t := next_id w in
  let s := S (next_id w) in
  let p := server_params cl in
  stdio_client_aenter E (trace w) p = Ok tt ->
  ClientSession_aenter E (trace w ++ [EvStdioEnter t p]) s = Ok tt ->
  ClientSession_initialize E
    (trace w ++ [EvStdioEnter t p; EvSessionEnter s t]) s = Ok tt ->
  connect self w =
  (Ok tt,
   with_session self t s w
     (trace w ++ [EvStdioEnter t p; EvSessionEnter s t; EvSessionInitialize s])).
Proof.
  intros Hcl t s p H1 H2 H3. subst t s p.
  unfold connect, bind, read_client, fresh_id, update_client, request,
    get_client; simpl.
  rewrite Hcl; simpl. rewrite H1; simpl. rewrite H2; simpl.
  rewrite <- !app_assoc; simpl. rewrite H3.
  unfold with_session. done.
Qed.

(** [connect] when the handshake fails: the exception goes out, and the
    session is stored in the client all the same (line 43 ran). *)
Lemma connect_handshake_fails self w cl e :
  clients w !! self = Some cl ->
  let t := next_id w in
  let s := S (next_id w) in
  let p := server_params cl in
  stdio_client_aenter E (trace w) p = Ok tt ->
  ClientSession_aenter E (trace w ++ [EvStdioEnter t p]) s = Ok tt ->
  ClientSession_initialize E
    (trace w ++ [EvStdioEnter t p; EvSessionEnter s t]) s = Raise e ->
  connect self w =
  (Raise e,
   with_session self t s w
     (trace w ++ [EvStdioEnter t p; EvSessionEnter s t; EvSessionInitialize s])).
Proof.
  intros Hcl t s p H1 H2 H3. subst t s p.
  unfold connect, bind, read_client, fresh_id, update_client, request,
    get_client; simpl.
  rewrite Hcl; simpl. rewrite H1; simpl. rewrite H2; simpl.
  rewrite <- !app_assoc; simpl. rewrite H3.
  unfold with_session. done.
Qed.

(** C9, as the code has it: [connect] has no guard.  On a client that
    already holds a session and a transport, a second [connect] whose
    transport and handshake go through returns normally; it sends the same
    three requests as the first, none of them closing the earlier session
    or transport, and stores the new session and transport over them. *)
Theorem connect_again_overwrites self w cl s0 t0 :
  clients w !! self = Some cl ->
  session cl = Some s0 ->
  _client cl = Some t0 ->
  stdio_client_aenter E (trace w) (server_params cl) = Ok tt ->
  ClientSession_aenter E
    (trace w ++ [EvStdioEnter (next_id w) (server_params cl)])
    (S (next_id w)) = Ok tt ->
  ClientSession_initialize E
    (trace w ++ [EvStdioEnter (next_id w) (server_params cl);
                 EvSessionEnter (S (next_id w)) (next_id w)])
    (S (next_id w)) = Ok tt ->
  exists w',
    connect self w = (Ok tt, w') /\
    trace w' =
      trace w ++ [EvStdioEnter (next_id w) (server_params cl);
                  EvSessionEnter (S (next_id w)) (next_id w);
                  EvSessionInitialize (S (next_id w))] /\
    clients w' !! self =
      Some {| server_params := server_params cl;
              session := Some (S (next_id w));
              _client := Some (next_id w) |}.
Proof.
  intros Hcl _ _ H1 H2 H3.
  eexists. split; [by apply (connect_ok self w cl)|].
  split; [done|]. by apply with_session_lookup.
Qed.

(** The guard of [get_available_tools]: a client that holds no session
    gets the [RuntimeError], and nothing is sent. *)
Lemma get_available_tools_no_session self w :
  session (get_client self w) = None ->
  get_available_tools self w
  = (Raise (RuntimeError "Not connected to MCP server"), w).
Proof.
  intros Hs. unfold get_available_tools, bind, read_client. by rewrite Hs.
Qed.

(** Past the guard, the answer is the session's. *)
Lemma get_available_tools_session self w s :
  session (get_client self w) = Some s ->
  get_available_tools self w
  = request (EvListTools s) (fun tr => ClientSession_list_tools E tr s) w.
Proof.
  intros Hs. unfold get_available_tools, bind, read_client. by rewrite Hs.
Qed.

(** After a [connect] whose handshake failed, the guard lets
    [get_available_tools] through: the request goes to the session of the
    failed attempt. *)
Lemma failed_handshake_passes_guard self w cl e :
  clients w !! self = Some cl ->
  stdio_client_aenter E (trace w) (server_params cl) = Ok tt ->
  ClientSession_aenter E
    (trace w ++ [EvStdioEnter (next_id w) (server_params cl)])
    (S (next_id w)) = Ok tt ->
  ClientSession_initialize E
    (trace w ++ [EvStdioEnter (next_id w) (server_params cl);
                 EvSessionEnter (S (next_id w)) (next_id w)])
    (S (next_id w)) = Raise e ->
  exists w1,
    connect self w = (Raise e, w1) /\
    get_available_tools self w1 =
      request (EvListTools (S (next_id w)))
        (fun tr => ClientSession_list_tools E tr (S (next_id w))) w1.
Proof.
  intros Hcl H1 H2 H3. eexists.
  split; [by apply (connect_handshake_fails self w cl)|].
  apply get_available_tools_session. unfold get_client.
  by rewrite (with_session_lookup _ _ _ _ _ _ Hcl).
Qed.

(** ** What a turn leaves behind, whatever its outcome *)

Lemma first_exchange_frame query tools messages w r w2 :
  first_exchange query tools messages w = (r, w2) ->
  clients w2 = clients w /\
  exists evs, trace w2 = trace w ++ evs /\ Forall (turn_event (clients w)) evs.
Proof.
  unfold first_exchange, bind.
  destruct (seed tools messages w) as [[l|e] w1] eqn:Hseed.
  - destruct (seed_inv _ _ _ _ _ Hseed) as (Hc & _ & Ht & _ & _).
    unfold append, extend, read_list, create, request; simpl.
    destruct (chat_completions_create E (trace w1) _) as [resp|e];
      intros [= <- <-]; simpl; (split; [done|]); rewrite Ht;
      eexists; (split; [reflexivity|]);
      (constructor; [|done]); left; eauto.
  - intros [= <- <-].
    assert (clients w1 = clients w /\ trace w1 = trace w) as [-> ->].
    { revert Hseed. unfold seed, bind, lift, new_list.
      destruct messages as [l0|]; [destruct (deref l0 w)|];
        try discriminate;
        destruct (SYSTEM_PROMPT_format (tools_section tools));
        try discriminate; by intros [= <- <-]. }
    split; [done|]. exists []. by rewrite app_nil_r.
Qed.

(** Once seeding has gone through, the user's message is in the list,
    whether or not the model answers. *)
Lemma first_exchange_history query tools messages w l w1 r w2 :
  seed tools messages w = (Ok l, w1) ->
  first_exchange query tools messages w = (r, w2) ->
  l < length (lists w2) /\ deref l w2 = deref l w1 ++ [MsgUser query].
Proof.
  intros Hseed. unfold first_exchange, bind. rewrite Hseed.
  destruct (seed_inv _ _ _ _ _ Hseed) as (_ & _ & _ & Hl & _).
  unfold append, extend, read_list, create, request; simpl.
  destruct (chat_completions_create E (trace w1) _) as [resp|e];
    intros [= <- <-]; simpl; (split; [by rewrite length_alter|]);
    by apply deref_extend.
Qed.

Lemma finish_frame tools l response w2 r w' :
  finish tools l response w2 = (r, w') ->
  clients w' = clients w2 /\
  (exists evs, trace w' = trace w2 ++ evs /\ Forall (turn_event (clients w2)) evs) /\
  (l < length (lists w2) -> exists more, deref l w' = deref l w2 ++ more).
Proof.
  assert (Hnone : forall w0 : World,
    exists evs, trace w0 = trace w0 ++ evs /\ Forall (turn_event (clients w2)) evs).
  { intros w0. exists []. by rewrite app_nil_r. }
  assert (Hsame : forall w0 : World,
    l < length (lists w0) -> exists more, deref l w0 = deref l w0 ++ more).
  { intros w0 _. exists []. by rewrite app_nil_r. }
  unfold finish, bind.
  destruct (choices response) as [|message rest] eqn:Hch; simpl.
  { intros [= <- <-]. auto. }
  destruct (tool_calls message) as [|tc calls].
  { simpl. rewrite Hch; simpl. intros [= <- <-]; simpl.
    repeat split; auto.
    intros Hl. eexists. by apply deref_extend. }
  destruct (tool_rounds tools l message (tc :: calls) w2) as [r1 w3] eqn:Hr.
  destruct (tool_rounds_inv _ _ _ _ _ _ _ Hr)
    as (texts & evs & Hl3 & Hc3 & _ & Ht3 & Hevs & _ & _).
  assert (Hevs' : Forall (turn_event (clients w2)) evs).
  { eapply Forall_impl; [exact Hevs|]. intros ev Hev. by right. }
  destruct r1 as [[]|e]; simpl.
  2:{ intros [= <- <-]. repeat split; eauto.
      intros Hl. eexists. by eapply deref_extend. }
  unfold read_list, create, request; simpl.
  assert (Hchat : forall req,
    Forall (turn_event (clients w2)) (evs ++ [EvChat req])).
  { intros req. apply Forall_app. split; [done|].
    constructor; [|done]. left. eauto. }
  destruct (chat_completions_create E (trace w3) _) as [resp2|e]; simpl.
  2:{ intros [= <- <-]; simpl. repeat split; auto.
      - eexists. split; [|apply Hchat]. by rewrite Ht3, <- app_assoc.
      - intros Hl. eexists. by eapply deref_extend. }
  destruct (choices resp2) as [|m2 r2]; simpl.
  { intros [= <- <-]; simpl. repeat split; auto.
    - eexists. split; [|apply Hchat]. by rewrite Ht3, <- app_assoc.
    - intros Hl. eexists. by eapply deref_extend. }
  intros [= <- <-]; simpl. repeat split; auto.
  - eexists. split; [|apply Hchat]. by rewrite Ht3, <- app_assoc.
  - intros Hl. eexists.
    erewrite deref_extend; [| |reflexivity].
    + erewrite (deref_extend _ l w2 w3); [|done|exact Hl3].
      by rewrite <- app_assoc.
    + by rewrite Hl3, length_alter.
Qed.

(** A turn changes no client, and sends only chat-completion requests and
    [call_tool] requests to sessions the clients hold. *)
Lemma agent_loop_frame query tools messages w r w' :
  agent_loop query tools messages w = (r, w') ->
  clients w' = clients w /\
  exists evs, trace w' = trace w ++ evs /\ Forall (turn_event (clients w)) evs.
Proof.
  rewrite agent_loop_split. unfold bind at 1.
  destruct (first_exchange query tools messages w) as [r1 w2] eqn:Hfirst.
  destruct (first_exchange_frame _ _ _ _ _ _ Hfirst) as (Hc & evs & Ht & Hevs).
  destruct r1 as [[l response]|e].
  - simpl. intros Hfin.
    destruct (finish_frame _ _ _ _ _ _ Hfin) as (Hc' & (evs' & Ht' & Hevs') & _).
    split; [congruence|]. exists (evs ++ evs').
    split; [by rewrite Ht', Ht, app_assoc|].
    apply Forall_app. split; [done|]. by rewrite <- Hc.
  - intros [= <- <-]. eauto.
Qed.

(** Once seeding has gone through, the list of the turn holds at its end
    what it held after seeding, then the user's message, then whatever the
    turn added before it ended or raised. *)
Lemma agent_loop_history query tools messages w l w1 r w' :
  seed tools messages w = (Ok l, w1) ->
  agent_loop query tools messages w = (r, w') ->
  exists more, deref l w' = deref l w1 ++ MsgUser query :: more.
Proof.
  intros Hseed. rewrite agent_loop_split. unfold bind at 1.
  destruct (first_exchange query tools messages w) as [r1 w2] eqn:Hfirst.
  destruct (first_exchange_history _ _ _ _ _ _ _ _ Hseed Hfirst) as (Hl & Hd).
  destruct r1 as [[l2 response]|e].
  - simpl. intros Hfin.
    assert (l2 = l) as ->.
    { destruct (first_exchange_inv _ _ _ _ _ _ _ Hfirst) as (w1' & Hseed' & _).
      congruence. }
    destruct (finish_frame _ _ _ _ _ _ Hfin) as (_ & _ & Hmore).
    destruct (Hmore Hl) as (more & ->). exists more.
    by rewrite Hd, <- app_assoc.
  - intros [= <- <-]. exists []. done.
Qed.

(** A turn that runs to its end adds to the list, after the user's
    message, the assistant message of the first response and one tool result
    for each requested call in turn, each pair together, and then the
    final answer. *)
Lemma turn_shape query tools messages w l response w2 message rest text l' w' :
  first_exchange query tools messages w = (Ok (l, response), w2) ->
  choices response = message :: rest ->
  agent_loop query tools messages w = (Ok (text, l'), w') ->
  exists texts,
    length texts = length (tool_calls message) /\
    deref l w' =
      deref l w2
      ++ concat (zip_with (round_messages message) (tool_calls message) texts)
      ++ [MsgAssistant text].
Proof.
  intros Hfirst Hch Hturn.
  destruct (first_exchange_inv _ _ _ _ _ _ _ Hfirst)
    as (w1 & _ & _ & Hl & _ & _ & _).
  rewrite agent_loop_split in Hturn. unfold bind at 1 in Hturn.
  rewrite Hfirst in Hturn; simpl in Hturn.
  destruct (finish_ok_inv _ _ _ _ _ _ _ _ _ Hl Hch Hturn) as (_ & Hshape).
  exact Hshape.
Qed.

(** The prompt loop keeps the list of a failed turn: on a history that is
    not empty, a turn that raises leaves the variable [messages] of [main]
    on the same list, which has grown by the user's message at least. *)
Lemma failed_turn_keeps_user_message query tools l w e w' :
  deref l w <> [] ->
  is_quit query = false ->
  agent_loop query tools (Some l) w = (Raise e, w') ->
  prompt_loop [Line query] tools (Some l) w = (AtPrompt, Some l, w') /\
  exists more,
    history (Some l) w' = history (Some l) w ++ MsgUser query :: more.
Proof.
  intros Hne Hquit Hturn. split.
  - simpl. by rewrite Hquit, Hturn.
  - simpl. apply (agent_loop_history query tools (Some l) w l w (Raise e) w');
      [|done].
    unfold seed. destruct (deref l w); done.
Qed.

(** ** Sessions are exited before their handles are called *)

Lemma grows_quietly_refl w : grows_quietly w w.
Proof. exists []. by rewrite app_nil_r. Qed.

Lemma grows_quietly_trans w1 w2 w3 :
  grows_quietly w1 w2 -> grows_quietly w2 w3 -> grows_quietly w1 w3.
Proof.
  intros (evs & Ht & Hq) (evs' & Ht' & Hq'). exists (evs ++ evs').
  split; [by rewrite Ht', Ht, app_assoc|]. apply Forall_app. done.
Qed.

Lemma late_calls_quiet w w' :
  grows_quietly w w' -> late_calls (trace w) -> late_calls (trace w').
Proof.
  intros (evs & -> & Hq) Hlate i s tool a Hi.
  apply lookup_app_Some in Hi as [Hi|[_ Hi]].
  - destruct (Hlate _ _ _ _ Hi) as (j & Hj & Hexit).
    exists j. split; [done|]. by apply lookup_app_l_Some.
  - apply (Forall_lookup_1 _ _ _ _ Hq) in Hi. discriminate.
Qed.

Lemma all_exited_grows w w' :
  clients w' = clients w ->
  (exists evs, trace w' = trace w ++ evs) ->
  all_exited w -> all_exited w'.
Proof.
  intros Hc (evs & Ht) Hall c cl s Hcl Hs. rewrite Hc in Hcl.
  destruct (Hall _ _ _ Hcl Hs) as (j & Hj).
  exists j. rewrite Ht. by apply lookup_app_l_Some.
Qed.

(** A turn keeps both: its calls go to sessions the clients hold, and
    these have all been exited. *)
Lemma late_calls_turn w w' evs :
  trace w' = trace w ++ evs ->
  Forall (turn_event (clients w)) evs ->
  all_exited w -> late_calls (trace w) -> late_calls (trace w').
Proof.
  intros -> Hevs Hall Hlate i s tool a Hi.
  apply lookup_app_Some in Hi as [Hi|[Hlen Hi]].
  - destruct (Hlate _ _ _ _ Hi) as (j & Hj & Hexit).
    exists j. split; [done|]. by apply lookup_app_l_Some.
  - apply (Forall_lookup_1 _ _ _ _ Hevs) in Hi.
    destruct Hi as [(req & Hreq)|(c & Hc)]; [discriminate|].
    destruct (clients w !! c) as [cl|] eqn:Hcl; [|discriminate].
    destruct (Hall _ _ _ Hcl Hc) as (j & Hj).
    exists j. split; [|by apply lookup_app_l_Some].
    apply lookup_lt_Some in Hj. lia.
Qed.

Lemma prompt_loop_late_calls inputs tools messages w :
  all_exited w -> late_calls (trace w) ->
  late_calls (trace (prompt_loop inputs tools messages w).2).
Proof.
  revert messages w.
  induction inputs as [|input inputs IH]; intros messages w Hall Hlate;
    [done|].
  destruct input as [query| |e]; simpl; [|done|by apply IH].
  destruct (is_quit query); [done|].
  destruct (agent_loop query tools messages w) as [r w'] eqn:Hturn.
  destruct (agent_loop_frame _ _ _ _ _ _ Hturn) as (Hc & evs & Ht & Hevs).
  assert (Hall' : all_exited w') by (eapply all_exited_grows; eauto).
  assert (Hlate' : late_calls (trace w')) by (eapply late_calls_turn; eauto).
  destruct r as [[text l]|e]; by apply IH.
Qed.

Lemma connect_frame self w r w' :
  connect self w = (r, w') ->
  (forall c, c <> self -> clients w' !! c = clients w !! c) /\
  grows_quietly w w'.
Proof.
  unfold connect, bind, read_client, fresh_id, update_client, request; simpl.
  destruct (stdio_client_aenter E (trace w) _) as [[]|e]; simpl.
  2:{ intros [= <- <-]; simpl. split.
      - intros c Hc. by rewrite list_lookup_alter_ne.
      - eexists. split; [reflexivity|]. by repeat constructor. }
  destruct (ClientSession_aenter E _ _) as [[]|e]; simpl.
  2:{ intros [= <- <-]; simpl. split.
      - intros c Hc. by rewrite list_lookup_alter_ne.
      - eexists. split; [by rewrite <- app_assoc|]. by repeat constructor. }
  intros [= <- <-]; simpl. split.
  - intros c Hc. by rewrite !list_lookup_alter_ne.
  - eexists. split; [by rewrite <- !app_assoc|]. by repeat constructor.
Qed.

(** [__aexit__] that returns has asked the session held by the client to exit. *)
Lemma aexit_frame self w r w' :
  __aexit__ self w = (r, w') ->
  clients w' = clients w /\ grows_quietly w w' /\
  (is_ok r = true -> forall s,
     session (get_client self w) = Some s ->
     exists j, trace w' !! j = Some (EvSessionExit s)).
Proof.
  unfold __aexit__, bind, read_client.
  destruct (session (get_client self w)) as [s|] eqn:Hs.
  - unfold request at 1; simpl.
    destruct (ClientSession_aexit E (trace w) s) as [[]|e]; simpl.
    2:{ intros [= <- <-]; simpl. repeat split; [|discriminate].
        eexists. split; [reflexivity|]. by repeat constructor. }
    unfold get_client at 1; simpl. fold (get_client self w).
    destruct (_client (get_client self w)) as [t|].
    + unfold request. intros [= <- <-]; simpl. repeat split.
      * eexists. split; [by rewrite <- app_assoc|]. by repeat constructor.
      * intros _ s' [= <-]. exists (length (trace w)).
        rewrite <- app_assoc. simpl. by rewrite list_lookup_middle.
    + intros [= <- <-]; simpl. repeat split.
      * eexists. split; [reflexivity|]. by repeat constructor.
      * intros _ s' [= <-]. exists (length (trace w)).
        by rewrite list_lookup_middle.
  - simpl. destruct (_client (get_client self w)) as [t|].
    + unfold request. intros [= <- <-]; simpl. repeat split; [|discriminate].
      eexists. split; [reflexivity|]. by repeat constructor.
    + intros [= <- <-]. repeat split; [|discriminate].
      apply grows_quietly_refl.
Qed.

Lemma register_tools_frame mcp_client tools found w r w' :
  register_tools mcp_client tools found w = (r, w') -> w' = w.
Proof.
  revert tools. induction found as [|tool found IH]; intros tools; simpl.
  - by intros [= _ <-].
  - unfold bind, call_tool, bind, read_client.
    destruct (session (get_client mcp_client w)); simpl.
    + apply IH.
    + by intros [= _ <-].
Qed.

Lemma discover_frame tools mcp_client w r w' :
  discover tools mcp_client w = (r, w') ->
  clients w' = clients w /\ grows_quietly w w'.
Proof.
  unfold discover, bind, get_available_tools, bind, read_client.
  destruct (session (get_client mcp_client w)) as [s|]; simpl.
  - destruct (ClientSession_list_tools E (trace w) s) as [[found|]|e]; simpl.
    + intros Hreg. apply register_tools_frame in Hreg as ->. simpl.
      split; [done|]. eexists. split; [reflexivity|]. by repeat constructor.
    + intros [= <- <-]; simpl.
      split; [done|]. eexists. split; [reflexivity|]. by repeat constructor.
    + intros [= <- <-]; simpl.
      split; [done|]. eexists. split; [reflexivity|]. by repeat constructor.
  - intros [= <- <-]. split; [done|]. apply grows_quietly_refl.
Qed.

(** The [async with] block of [main] sends no [call_tool] request; when
    it is left without an exception, the session of its client has been
    exited, and so have the sessions that had been before. *)
Lemma async_with_frame tools self w r w' :
  async_with self (discover tools) w = (r, w') ->
  grows_quietly w w' /\
  (is_ok r = true -> all_exited w -> all_exited w').
Proof.
  unfold async_with, __aenter__, bind.
  destruct (connect self w) as [[[]|e] w1] eqn:Hconn;
    destruct (connect_frame _ _ _ _ Hconn) as (Hother & Hq1).
  2:{ intros [= <- <-]. split; [done|discriminate]. }
  simpl.
  destruct (discover tools self w1) as [rb w2] eqn:Hbody.
  destruct (discover_frame _ _ _ _ _ Hbody) as (Hc2 & Hq2).
  destruct (__aexit__ self w2) as [rx w3] eqn:Hexit.
  destruct (aexit_frame _ _ _ _ Hexit) as (Hc3 & Hq3 & Hs3).
  assert (Hq : grows_quietly w w3).
  { eapply grows_quietly_trans; [exact Hq1|].
    eapply grows_quietly_trans; [exact Hq2|exact Hq3]. }
  assert (Hall : is_ok rx = true -> all_exited w -> all_exited w3).
  { intros Hok Hall c cl s Hcl Hs. rewrite Hc3, Hc2 in Hcl.
    destruct (decide (c = self)) as [->|Hne].
    - apply (Hs3 Hok). unfold get_client. by rewrite Hc2, Hcl.
    - rewrite Hother in Hcl by done.
      destruct (Hall _ _ _ Hcl Hs) as (j & Hj).
      destruct Hq as (evs & -> & _). exists j. by apply lookup_app_l_Some. }
  destruct rb as [tools'|e]; destruct rx as [[]|e']; intros [= <- <-];
    (split; [done|]); try discriminate; auto.
Qed.

Lemma setup_frame servers mcp_clients tools w r w' :
  setup servers mcp_clients tools w = (r, w') ->
  grows_quietly w w' /\
  (is_ok r = true -> all_exited w -> all_exited w').
Proof.
  revert mcp_clients tools w.
  induction servers as [|server servers IH]; intros mcp_clients tools w; simpl.
  - intros [= <- <-]. split; [apply grows_quietly_refl|done].
  - unfold bind at 1. unfold __init__ at 1.
    set (w0 := {| lists := lists w;
                  clients := clients w ++ [_];
                  next_id := next_id w; trace := trace w |}).
    assert (Hall0 : all_exited w -> all_exited w0).
    { intros Hall c cl s Hcl Hs. simpl in Hcl.
      apply lookup_app_Some in Hcl as [Hcl|[_ Hcl]].
      - exact (Hall _ _ _ Hcl Hs).
      - apply list_lookup_singleton_Some in Hcl as [_ <-]. discriminate. }
    unfold bind at 1.
    destruct (async_with (length (clients w)) (discover tools) w0)
      as [rw w1] eqn:Hwith.
    destruct (async_with_frame _ _ _ _ _ Hwith) as (Hq1 & Hall1).
    destruct rw as [tools'|e].
    + intros Hrest. destruct (IH _ _ _ Hrest) as (Hq2 & Hall2).
      split.
      * eapply grows_quietly_trans; [|exact Hq2]. exact Hq1.
      * auto.
    + intros [= <- <-]. split; [exact Hq1|discriminate].
Qed.

(** In every run of [main], on any configuration and any console input,
    each [call_tool] request, which is each call of a registered handle
    that reaches its session, is sent after that session was exited. *)
Lemma calls_follow_session_exit inputs :
  late_calls (trace (main inputs start).2).
Proof.
  assert (Hlate0 : late_calls (trace start)) by (intros i ? ? ? Hi; done).
  assert (Hall0 : all_exited start) by (intros c ? ? Hc; done).
  unfold main.
  destruct (setup mcp_servers [] [] start) as [r w1] eqn:Hsetup.
  destruct (setup_frame _ _ _ _ _ _ Hsetup) as (Hq & Hall).
  pose proof (late_calls_quiet _ _ Hq Hlate0) as Hlate1.
  destruct r as [[cs tools]|e]; [|done].
  pose proof (prompt_loop_late_calls inputs tools None w1 (Hall eq_refl Hall0) Hlate1)
    as Hloop.
  destruct (prompt_loop inputs tools None w1) as [[status messages] w2].
  exact Hloop.
Qed.

Lemma tool_result_ids_rounds_prefix message calls texts :
  length texts <= length calls ->
  tool_result_ids (concat (zip_with (round_messages message) calls texts))
  = map tc_id (take (length texts) calls).
Proof.
  revert texts. induction calls as [|tc calls IH]; intros [|t texts] Hlen;
    simpl in *; try done; try lia.
  f_equal. apply IH. lia.
Qed.

(** Whatever the outcome of the turn, the tool results it has added are
    those of the first requests, in their order: all of them when the turn
    runs to its end, those before the failure otherwise. *)
Lemma tool_results_prefix_of_requests
    query tools messages w l response w2 message rest r w' :
  first_exchange query tools messages w = (Ok (l, response), w2) ->
  choices response = message :: rest ->
  agent_loop query tools messages w = (r, w') ->
  exists n,
    n <= length (tool_calls message) /\
    (is_ok r = true -> n = length (tool_calls message)) /\
    tool_result_ids (drop (length (deref l w2)) (deref l w'))
    = map tc_id (take n (tool_calls message)).
Proof.
  intros Hfirst Hch Hturn.
  destruct (first_exchange_inv _ _ _ _ _ _ _ Hfirst)
    as (w1 & _ & _ & Hl & _ & _ & _).
  rewrite agent_loop_split in Hturn. unfold bind at 1 in Hturn.
  rewrite Hfirst in Hturn; simpl in Hturn.
  revert Hturn. unfold finish, bind. rewrite Hch; simpl.
  destruct (tool_calls message) as [|tc calls] eqn:Hcalls.
  { simpl. rewrite Hch; simpl. intros [= <- <-]. exists 0.
    repeat split; [done|].
    erewrite (deref_extend _ l w2 (Build_World _ _ _ _)); [|done|reflexivity].
    by rewrite drop_app_length. }
  destruct (tool_rounds tools l message (tc :: calls) w2) as [r1 w3] eqn:Hr.
  destruct (tool_rounds_inv _ _ _ _ _ _ _ Hr)
    as (texts & evs & Hl3 & _ & _ & _ & _ & Hle & Hlen).
  assert (Hd3 : deref l w3 =
    deref l w2 ++ concat (zip_with (round_messages message) (tc :: calls) texts)).
  { by eapply deref_extend. }
  assert (Hids : forall tail,
    tool_result_ids tail = [] ->
    tool_result_ids (drop (length (deref l w2)) (deref l w3 ++ tail))
    = map tc_id (take (length texts) (tc :: calls))).
  { intros tail Htail.
    rewrite Hd3, <- app_assoc, drop_app_length, tool_result_ids_app, Htail.
    rewrite app_nil_r. by apply tool_result_ids_rounds_prefix. }
  destruct r1 as [[]|e]; simpl.
  2:{ intros [= <- <-]. exists (length texts).
      repeat split; [done|discriminate|].
      rewrite <- (app_nil_r (deref l w3)). by apply Hids. }
  unfold read_list, create, request; simpl.
  destruct (chat_completions_create E (trace w3) _) as [resp2|e]; simpl.
  2:{ intros [= <- <-]. exists (length texts).
      repeat split; [done|discriminate|].
      unfold deref at 2; simpl. fold (deref l w3).
      rewrite <- (app_nil_r (deref l w3)). by apply Hids. }
  destruct (choices resp2) as [|m2 r2]; simpl.
  { intros [= <- <-]. exists (length texts).
    repeat split; [done|discriminate|].
    unfold deref at 2; simpl. fold (deref l w3).
    rewrite <- (app_nil_r (deref l w3)). by apply Hids. }
  intros [= <- <-]. exists (length texts).
  repeat split; [done|by intros _; apply Hlen|].
  erewrite (deref_extend _ l w3 (Build_World _ _ _ _));
    [|by rewrite Hl3, length_alter|reflexivity].
  by apply Hids.
Qed.

(** * Further properties of [MCPClient] *)

(** X1: a client that was just constructed is not connected: both guards
    raise, nothing is sent, and leaving its scope sends nothing either. *)
Theorem new_client_not_connected p w tool_name :
  let c := length (clients w) in
  let w0 := (__init__ p w).2 in
  get_available_tools c w0
  = (Raise (RuntimeError "Not connected to MCP server"), w0) /\
  call_tool c tool_name w0
  = (Raise (RuntimeError "Not connected to MCP server"), w0) /\
  __aexit__ c w0 = (Ok tt, w0).
Proof.
  intros c w0.
  assert (Hc : get_client c w0
               = {| server_params := p; session := None; _client := None |}).
  { unfold get_client, c, w0; simpl. by rewrite list_lookup_middle. }
  unfold get_available_tools, call_tool, __aexit__, bind, read_client.
  rewrite Hc; simpl. by rewrite Hc.
Qed.

(** X2: when [connect] fails in the transport or in the entry of the
    session, the exception goes out, the transport object is stored and
    the session is not: a client that held no session still holds none,
    and both guards still raise. *)
Theorem connect_fails_before_session self w cl e :
  clients w !! self = Some cl ->
  session cl = None ->
  (stdio_client_aenter E (trace w) (server_params cl) = Raise e \/
   (stdio_client_aenter E (trace w) (server_params cl) = Ok tt /\
    ClientSession_aenter E
      (trace w ++ [EvStdioEnter (next_id w) (server_params cl)])
      (S (next_id w)) = Raise e)) ->
  exists w',
    connect self w = (Raise e, w') /\
    clients w' !! self =
      Some {| server_params := server_params cl; session := None;
              _client := Some (next_id w) |} /\
    get_available_tools self w'
    = (Raise (RuntimeError "Not connected to MCP server"), w') /\
    forall tool_name,
      call_tool self tool_name w'
      = (Raise (RuntimeError "Not connected to MCP server"), w').
Proof.
  intros Hcl Hs Hfail.
  assert (Hafter : forall w' : World,
    clients w' = alter (set__client (Some (next_id w))) self (clients w) ->
    clients w' !! self =
      Some {| server_params := server_params cl; session := None;
              _client := Some (next_id w) |} /\
    get_available_tools self w'
    = (Raise (RuntimeError "Not connected to MCP server"), w') /\
    forall tool_name,
      call_tool self tool_name w'
      = (Raise (RuntimeError "Not connected to MCP server"), w')).
  { intros w' Hw'.
    assert (Hl : clients w' !! self =
      Some {| server_params := server_params cl; session := None;
              _client := Some (next_id w) |}).
    { rewrite Hw', list_lookup_alter_eq, Hcl. simpl.
      unfold set__client. by rewrite Hs. }
    split; [exact Hl|].
    unfold get_available_tools, call_tool, bind, read_client, get_client.
    rewrite Hl. done. }
  unfold connect, bind, read_client, fresh_id, update_client, request,
    get_client; simpl.
  rewrite Hcl; simpl.
  destruct Hfail as [H1|[H1 H2]]; rewrite H1; simpl.
  - eexists. split; [reflexivity|]. by apply Hafter.
  - rewrite H2; simpl. eexists. split; [reflexivity|]. by apply Hafter.
Qed.

(** X3: [__aexit__] exits the session first and the transport after it;
    what it returns is the outcome of the transport's exit. *)
Theorem aexit_exits_session_then_transport self w cl s t :
  clients w !! self = Some cl ->
  session cl = Some s ->
  _client cl = Some t ->
  ClientSession_aexit E (trace w) s = Ok tt ->
  __aexit__ self w =
  (stdio_client_aexit E (trace w ++ [EvSessionExit s]) t,
   {| lists := lists w; clients := clients w; next_id := next_id w;
      trace := trace w ++ [EvSessionExit s; EvStdioExit t] |}).
Proof.
  intros Hcl Hs Ht Hexit.
  unfold __aexit__, bind, read_client, get_client. rewrite Hcl; simpl.
  rewrite Hs. unfold request at 1; simpl. rewrite Hexit; simpl.
  rewrite Hcl; simpl. rewrite Ht. unfold request; simpl.
  by rewrite <- app_assoc.
Qed.

(** X4: when the exit of the session raises, [__aexit__] raises with it
    and the exit of the transport is never requested. *)
Theorem aexit_session_failure_skips_transport self w cl s t e :
  clients w !! self = Some cl ->
  session cl = Some s ->
  _client cl = Some t ->
  ClientSession_aexit E (trace w) s = Raise e ->
  __aexit__ self w =
  (Raise e,
   {| lists := lists w; clients := clients w; next_id := next_id w;
      trace := trace w ++ [EvSessionExit s] |}).
Proof.
  intros Hcl Hs Ht Hexit.
  unfold __aexit__, bind, read_client, get_client. rewrite Hcl; simpl.
  rewrite Hs. unfold request at 1; simpl. by rewrite Hexit.
Qed.

(** [__aexit__] changes no client, and has asked the session held by the
    client to exit, whatever it returns. *)
Lemma aexit_keeps_client self w s r w' :
  session (get_client self w) = Some s ->
  __aexit__ self w = (r, w') ->
  clients w' = clients w /\
  exists j, trace w' !! j = Some (EvSessionExit s).
Proof.
  intros Hs. unfold __aexit__, bind, read_client. rewrite Hs.
  unfold request at 1; simpl.
  destruct (ClientSession_aexit E (trace w) s) as [[]|e]; simpl.
  - unfold get_client at 1; simpl. fold (get_client self w).
    destruct (_client (get_client self w)) as [t|].
    + unfold request. intros [= <- <-]; simpl. split; [done|].
      exists (length (trace w)). rewrite <- app_assoc. simpl.
      by rewrite list_lookup_middle.
    + intros [= <- <-]; simpl. split; [done|].
      exists (length (trace w)). by rewrite list_lookup_middle.
  - intros [= <- <-]; simpl. split; [done|].
    exists (length (trace w)). by rewrite list_lookup_middle.
Qed.

(** X5: [__aexit__] does not clear [self.session]: after it, whatever it
    returned, the exit of the session has been requested and yet both
    guards pass, [get_available_tools] sending its request to that session
    and [call_tool] handing out a closure. *)
Theorem guards_pass_after_exit self w s r w' tool_name :
  session (get_client self w) = Some s ->
  __aexit__ self w = (r, w') ->
  (exists j, trace w' !! j = Some (EvSessionExit s)) /\
  get_available_tools self w' =
    request (EvListTools s) (fun tr => ClientSession_list_tools E tr s) w' /\
  call_tool self tool_name w' =
    (Ok {| self_ref := self; tool_name := tool_name |}, w').
Proof.
  intros Hs Hexit.
  destruct (aexit_keeps_client _ _ _ _ _ Hs Hexit) as (Hc & Hj).
  assert (Hs' : session (get_client self w') = Some s).
  { unfold get_client in *. by rewrite Hc. }
  split; [exact Hj|]. split.
  - by apply get_available_tools_session.
  - unfold call_tool, bind, read_client. by rewrite Hs'.
Qed.

(** X6: the handle returns the text of the first content item of the
    server's answer and ignores the items after it; it has sent one
    request, with the tool name it captured and the keyword arguments it
    was given, to the session its client holds when it is called. *)
Theorem handle_returns_first_text c arguments w s answer text more :
  session (get_client (self_ref c) w) = Some s ->
  ClientSession_call_tool E (trace w) s (tool_name c) arguments = Ok answer ->
  result_content answer = TextContent text :: more ->
  call c arguments w =
  (Ok text,
   {| lists := lists w; clients := clients w; next_id := next_id w;
      trace := trace w ++ [EvCallTool s (tool_name c) arguments] |}).
Proof.
  intros Hs Hans Hcontent.
  unfold call, bind, read_client. rewrite Hs. unfold request at 1; simpl.
  rewrite Hans; simpl. by rewrite Hcontent.
Qed.

(** X7: when the server's answer has no content item the handle raises
    [IndexError], and when its first item is not a text item the handle
    raises [AttributeError]; in both cases the request has been sent. *)
Theorem handle_without_text_raises c arguments w s answer :
  session (get_client (self_ref c) w) = Some s ->
  ClientSession_call_tool E (trace w) s (tool_name c) arguments = Ok answer ->
  (forall text more, result_content answer <> TextContent text :: more) ->
  exists e,
    call c arguments w =
    (Raise e,
     {| lists := lists w; clients := clients w; next_id := next_id w;
        trace := trace w ++ [EvCallTool s (tool_name c) arguments] |}) /\
    (result_content answer = [] -> e = IndexError) /\
    (result_content answer <> [] -> e = AttributeError).
Proof.
  intros Hs Hans Hnotext.
  unfold call, bind, read_client. rewrite Hs. unfold request at 1; simpl.
  rewrite Hans; simpl.
  destruct (result_content answer) as [|[text|] more] eqn:Hcontent; simpl.
  - exists IndexError. done.
  - by destruct (Hnotext text more).
  - exists AttributeError. done.
Qed.

(** X8: when the handshake fails inside [async with], the body does not
    run and [__aexit__] is not called: the transport and the session that
    were entered are never asked to exit. *)
Theorem failed_enter_skips_exit {A} self (body : nat -> M A) w cl e :
  clients w !! self = Some cl ->
  stdio_client_aenter E (trace w) (server_params cl) = Ok tt ->
  ClientSession_aenter E
    (trace w ++ [EvStdioEnter (next_id w) (server_params cl)])
    (S (next_id w)) = Ok tt ->
  ClientSession_initialize E
    (trace w ++ [EvStdioEnter (next_id w) (server_params cl);
                 EvSessionEnter (S (next_id w)) (next_id w)])
    (S (next_id w)) = Raise e ->
  exists w',
    async_with self body w = (Raise e, w') /\
    trace w' =
      trace w ++ [EvStdioEnter (next_id w) (server_params cl);
                  EvSessionEnter (S (next_id w)) (next_id w);
                  EvSessionInitialize (S (next_id w))].
Proof.
  intros Hcl H1 H2 H3. eexists. split.
  - unfold async_with, __aenter__, bind.
    rewrite (connect_handshake_fails self w cl e Hcl H1 H2 H3). reflexivity.
  - done.
Qed.

(** X9: when listing the tools raises inside the [async with] of [main],
    [__aexit__] still runs before the exception goes on: the session the
    client holds has been asked to exit. *)
Theorem discovery_failure_still_exits tools self w w1 s e w2 r w3 :
  connect self w = (Ok tt, w1) ->
  session (get_client self w1) = Some s ->
  get_available_tools self w1 = (Raise e, w2) ->
  __aexit__ self w2 = (r, w3) ->
  exists e',
    async_with self (discover tools) w = (Raise e', w3) /\
    (is_ok r = true -> e' = e) /\
    exists j, trace w3 !! j = Some (EvSessionExit s).
Proof.
  intros Hconn Hs Hlist Hexit.
  assert (Hc2 : clients w2 = clients w1).
  { revert Hlist. unfold get_available_tools, bind, read_client.
    rewrite Hs. unfold request. by intros [= _ <-]. }
  assert (Hs2 : session (get_client self w2) = Some s).
  { unfold get_client in *. by rewrite Hc2. }
  destruct (aexit_keeps_client _ _ _ _ _ Hs2 Hexit) as (_ & Hj).
  assert (Hbody : discover tools self w1 = (Raise e, w2)).
  { unfold discover, bind. by rewrite Hlist. }
  unfold async_with, __aenter__, bind. rewrite Hconn; simpl.
  rewrite Hbody, Hexit.
  destruct r as [[]|e'].
  - exists e. done.
  - exists e'. split; [done|]. split; [discriminate|done].
Qed.

(** * Further properties of [agent_loop] *)

(** When the loop over the requested tools raises at one call, the calls
    before it having gone through, the turn raises there. *)
Lemma turn_stops_at
    query tools messages w l response w2 message rest
    before tool_call after w3 e w4 :
  first_exchange query tools messages w = (Ok (l, response), w2) ->
  choices response = message :: rest ->
  tool_calls message = before ++ tool_call :: after ->
  tool_rounds tools l message before w2 = (Ok tt, w3) ->
  tool_round tools l message tool_call w3 = (Raise e, w4) ->
  agent_loop query tools messages w = (Raise e, w4).
Proof.
  intros Hfirst Hch Hcalls Hbefore Hround.
  rewrite agent_loop_split. unfold bind at 1. rewrite Hfirst; simpl.
  apply (finish_rounds_raise _ _ _ _ _ _ _ _ Hch).
  rewrite Hcalls, tool_rounds_app. unfold bind at 1. rewrite Hbefore.
  simpl. unfold bind at 1. by rewrite Hround.
Qed.

(** X10: when the model asks for a tool that is not in the registry, the
    turn raises [KeyError] with the name asked for; the calls before it
    have been made, no handle is called for it or for the calls after it,
    and no second chat-completion request is sent. *)
Theorem unknown_tool_raises_key_error
    query tools messages w l response w2 message rest
    before tool_call after w3 arguments :
  first_exchange query tools messages w = (Ok (l, response), w2) ->
  choices response = message :: rest ->
  tool_calls message = before ++ tool_call :: after ->
  tool_rounds tools l message before w2 = (Ok tt, w3) ->
  json_loads (tc_function_arguments tool_call) = Ok arguments ->
  getitem tools (tc_function_name tool_call) = None ->
  agent_loop query tools messages w
  = (Raise (KeyError (tc_function_name tool_call)), w3).
Proof.
  intros Hfirst Hch Hcalls Hbefore Hjson Hget.
  eapply turn_stops_at; eauto.
  unfold tool_round, bind, lift. by rewrite Hjson, Hget.
Qed.

(** X11: when the arguments of a requested call are not valid JSON, the
    turn raises the decoder's exception before the registry is looked at:
    this holds whether or not the tool is registered, and the world is the
    one the calls before it left. *)
Theorem malformed_arguments_end_turn
    query tools messages w l response w2 message rest
    before tool_call after w3 e :
  first_exchange query tools messages w = (Ok (l, response), w2) ->
  choices response = message :: rest ->
  tool_calls message = before ++ tool_call :: after ->
  tool_rounds tools l message before w2 = (Ok tt, w3) ->
  json_loads (tc_function_arguments tool_call) = Raise e ->
  agent_loop query tools messages w = (Raise e, w3).
Proof.
  intros Hfirst Hch Hcalls Hbefore Hjson.
  eapply turn_stops_at; eauto.
  unfold tool_round, bind, lift. by rewrite Hjson.
Qed.

(** X12: when the arguments of a call to a registered tool decode to
    something that is not an object, the turn raises [TypeError] and the
    handle is not called. *)
Theorem non_object_arguments_raise_type_error
    query tools messages w l response w2 message rest
    before tool_call after w3 arguments tool :
  first_exchange query tools messages w = (Ok (l, response), w2) ->
  choices response = message :: rest ->
  tool_calls message = before ++ tool_call :: after ->
  tool_rounds tools l message before w2 = (Ok tt, w3) ->
  json_loads (tc_function_arguments tool_call) = Ok arguments ->
  (forall items, arguments <> JDict items) ->
  getitem tools (tc_function_name tool_call) = Some tool ->
  agent_loop query tools messages w = (Raise TypeError, w3).
Proof.
  intros Hfirst Hch Hcalls Hbefore Hjson Hnot Hget.
  eapply turn_stops_at; eauto.
  unfold tool_round, bind, lift. rewrite Hjson, Hget; simpl.
  destruct arguments as [| | | | | |items]; try done.
  by destruct (Hnot items).
Qed.

(** From the first response on, a turn sends [call_tool] requests and
    then at most one chat-completion request, the second one. *)
Lemma finish_trace tools l response w2 r w' :
  finish tools l response w2 = (r, w') ->
  exists calls tail,
    trace w' = trace w2 ++ calls ++ tail /\
    Forall (call_to (clients w2)) calls /\
    (tail = [] \/ exists h, tail = [EvChat (second_request h)]).
Proof.
  assert (Hnone : forall w0 : World,
    exists calls tail,
      trace w0 = trace w0 ++ calls ++ tail /\
      Forall (call_to (clients w2)) calls /\
      (tail = [] \/ exists h, tail = [EvChat (second_request h)])).
  { intros w0. exists [], []. rewrite app_nil_r. auto. }
  unfold finish, bind.
  destruct (choices response) as [|message rest] eqn:Hch; simpl.
  { intros [= <- <-]. auto. }
  destruct (tool_calls message) as [|tc calls].
  { simpl. rewrite Hch; simpl. intros [= <- <-]; simpl. apply Hnone. }
  destruct (tool_rounds tools l message (tc :: calls) w2) as [r1 w3] eqn:Hr.
  destruct (tool_rounds_inv _ _ _ _ _ _ _ Hr)
    as (texts & evs & _ & _ & _ & Ht3 & Hevs & _ & _).
  destruct r1 as [[]|e]; simpl.
  2:{ intros [= <- <-]. exists evs, []. rewrite app_nil_r. auto. }
  unfold read_list, create, request; simpl.
  assert (Hsecond : forall tr,
    tr = trace w3 ++ [EvChat (second_request (deref l w3))] ->
    exists calls0 tail,
      tr = trace w2 ++ calls0 ++ tail /\
      Forall (call_to (clients w2)) calls0 /\
      (tail = [] \/ exists h, tail = [EvChat (second_request h)])).
  { intros tr ->. exists evs, [EvChat (second_request (deref l w3))].
    rewrite Ht3, <- app_assoc. eauto. }
  destruct (chat_completions_create E (trace w3) _) as [resp2|e]; simpl.
  2:{ intros [= <- <-]; simpl. by apply Hsecond. }
  destruct (choices resp2) as [|m2 r2]; simpl;
    intros [= <- <-]; simpl; by apply Hsecond.
Qed.

(** X13: the requests of a turn, whatever its outcome, once seeding has
    gone through: the first chat-completion request, then [call_tool]
    requests to sessions the clients hold and nothing else, then at most
    one more chat-completion request, which has no tool manifest and no
    sampling parameters.  So a turn sends at most two chat-completion
    requests, never runs a tool asked for by the second response, and
    changes no client. *)
Theorem turn_trace_shape query tools messages w l w1 r w' :
  seed tools messages w = (Ok l, w1) ->
  agent_loop query tools messages w = (r, w') ->
  clients w' = clients w /\
  exists calls tail,
    trace w' =
      trace w
      ++ EvChat (first_request tools (deref l w1 ++ [MsgUser query]))
         :: calls ++ tail /\
    Forall (call_to (clients w)) calls /\
    (tail = [] \/
     exists h, tail = [EvChat {| req_model := MODEL; req_messages := h;
                                 req_tools := None; req_max_tokens := None;
                                 req_temperature := None |}]).
Proof.
  intros Hseed Hturn.
  destruct (agent_loop_frame _ _ _ _ _ _ Hturn) as (Hc & _).
  split; [exact Hc|].
  destruct (seed_inv _ _ _ _ _ Hseed) as (Hc1 & _ & Ht1 & Hl1 & _).
  revert Hturn. rewrite agent_loop_split. unfold bind at 1.
  unfold first_exchange, bind. rewrite Hseed.
  unfold append, extend, read_list, create, request; simpl.
  rewrite (deref_extend [MsgUser query] l w1) by done.
  destruct (chat_completions_create E (trace w1) _) as [response|e]; simpl.
  2:{ intros [= <- <-]; simpl. exists [], []. rewrite Ht1. auto. }
  intros Hfin.
  destruct (finish_trace _ _ _ _ _ _ Hfin) as (calls & tail & Ht & Hcalls & Htail).
  simpl in Ht, Hcalls. exists calls, tail.
  split; [by rewrite Ht, Ht1, <- app_assoc|].
  split; [by rewrite <- Hc1|exact Htail].
Qed.

(** From the first response on, a turn changes one list only, the one it
    was given, and only by adding to its end; a turn that runs to its end
    returns that list, with the final answer as its last message. *)
Lemma finish_lists tools l response w2 r w' :
  finish tools l response w2 = (r, w') ->
  exists more,
    lists w' = alter (fun h => h ++ more) l (lists w2) /\
    forall text l', r = Ok (text, l') ->
      l' = l /\ exists earlier, more = earlier ++ [MsgAssistant text].
Proof.
  assert (Hnone : forall e : Exn, exists more,
    lists w2 = alter (fun h => h ++ more) l (lists w2) /\
    forall text l', Raise e = Ok (text, l') ->
      l' = l /\ exists earlier, more = earlier ++ [MsgAssistant text]).
  { intros e. exists []. split; [|discriminate].
    symmetry. apply list_alter_id. intros h. apply app_nil_r. }
  unfold finish, bind.
  destruct (choices response) as [|message rest] eqn:Hch; simpl.
  { intros [= <- <-]. apply Hnone. }
  destruct (tool_calls message) as [|tc calls].
  { simpl. rewrite Hch; simpl. intros [= <- <-]; simpl.
    exists [MsgAssistant (content message)]. split; [done|].
    intros text l' [= <- <-]. split; [done|]. by exists []. }
  destruct (tool_rounds tools l message (tc :: calls) w2) as [r1 w3] eqn:Hr.
  destruct (tool_rounds_inv _ _ _ _ _ _ _ Hr)
    as (texts & evs & Hl3 & _ & _ & _ & _ & _ & _).
  destruct r1 as [[]|e]; simpl.
  2:{ intros [= <- <-]. eexists. split; [exact Hl3|discriminate]. }
  unfold read_list, create, request; simpl.
  destruct (chat_completions_create E (trace w3) _) as [resp2|e]; simpl.
  2:{ intros [= <- <-]; simpl. eexists. split; [exact Hl3|discriminate]. }
  destruct (choices resp2) as [|m2 r2]; simpl.
  { intros [= <- <-]; simpl. eexists. split; [exact Hl3|discriminate]. }
  intros [= <- <-]; simpl.
  exists (concat (zip_with (round_messages message) (tc :: calls) texts)
          ++ [MsgAssistant (content m2)]).
  split.
  - rewrite Hl3, list_alter_alter_eq. apply list_alter_ext; [|done].
    intros h _. simpl. by rewrite <- app_assoc.
  - intros text l' [= <- <-]. split; [done|]. eauto.
Qed.

Lemma agent_loop_lists query tools messages w l w1 r w' :
  seed tools messages w = (Ok l, w1) ->
  agent_loop query tools messages w = (r, w') ->
  exists more,
    lists w' = alter (fun h => h ++ MsgUser query :: more) l (lists w1) /\
    forall text l', r = Ok (text, l') ->
      l' = l /\ exists earlier, more = earlier ++ [MsgAssistant text].
Proof.
  intros Hseed. rewrite agent_loop_split. unfold bind at 1.
  unfold first_exchange, bind. rewrite Hseed.
  unfold append, extend, read_list, create, request; simpl.
  destruct (chat_completions_create E (trace w1) _) as [response|e]; simpl.
  2:{ intros [= <- <-]; simpl. exists []. split; [done|discriminate]. }
  intros Hfin.
  destruct (finish_lists _ _ _ _ _ _ Hfin) as (more & Hl & Hok).
  simpl in Hl. exists more. split; [|exact Hok].
  rewrite Hl, list_alter_alter_eq. apply list_alter_ext; [|done].
  intros h _. simpl. by rewrite <- app_assoc.
Qed.

(** X14: a turn on a history that is not empty works on the caller's own
    list: it does not format the system prompt, it changes no other list,
    and whatever its outcome it only adds to the end of that list, the
    user's message first; when it runs to its end it returns that same
    list, whose last message is the answer it returns. *)
Theorem inherited_history_only_grows query tools l w r w' :
  deref l w <> [] ->
  agent_loop query tools (Some l) w = (r, w') ->
  exists more,
    lists w' = alter (fun h => h ++ MsgUser query :: more) l (lists w) /\
    forall text l', r = Ok (text, l') ->
      l' = l /\ exists earlier, more = earlier ++ [MsgAssistant text].
Proof.
  intros Hne Hturn.
  apply (agent_loop_lists query tools (Some l) w l w r w'); [|done].
  unfold seed. destruct (deref l w); done.
Qed.

(** X15: on a turn that starts afresh ([messages] is [None] or an empty
    list), a prompt template that cannot be formatted ends the turn with
    the exception of the formatting: nothing is sent and no list is made
    or changed. *)
Theorem broken_template_ends_fresh_turn query tools messages w e :
  history messages w = [] ->
  SYSTEM_PROMPT_format (tools_section tools) = Raise e ->
  agent_loop query tools messages w = (Raise e, w).
Proof.
  intros Hfresh Hfmt.
  unfold agent_loop, bind at 1. unfold seed, bind, lift.
  destruct messages as [l|]; simpl in Hfresh; rewrite ?Hfresh, Hfmt; done.
Qed.

(** X16: a turn that starts afresh makes a new list and leaves every list
    there was as it is, an empty list passed in included: the new list
    begins with the system message, made of the template and the tool
    lines, and the user's message, and is the one the turn returns. *)
Theorem fresh_turn_builds_new_list query tools messages w text r w' :
  history messages w = [] ->
  SYSTEM_PROMPT_format (tools_section tools) = Ok text ->
  agent_loop query tools messages w = (r, w') ->
  exists more,
    lists w' = lists w ++ [MsgSystem text :: MsgUser query :: more] /\
    forall answer l', r = Ok (answer, l') ->
      l' = length (lists w) /\
      exists earlier, more = earlier ++ [MsgAssistant answer].
Proof.
  intros Hfresh Hfmt Hturn.
  assert (Hseed : seed tools messages w =
    (Ok (length (lists w)),
     {| lists := lists w ++ [[MsgSystem text]]; clients := clients w;
        next_id := next_id w; trace := trace w |})).
  { unfold seed, bind, lift, new_list.
    destruct messages as [l|]; simpl in Hfresh; rewrite ?Hfresh, Hfmt; done. }
  destruct (agent_loop_lists _ _ _ _ _ _ _ _ Hseed Hturn) as (more & Hl & Hok).
  exists more. split; [|exact Hok].
  rewrite Hl; simpl.
  rewrite <- (Nat.add_0_r (length (lists w))), alter_app_r. done.
Qed.

(** * Further properties of [main] *)

(** ** The registry *)

Lemma getitem_setitem_eq d k v : getitem (setitem d k v) k = Some v.
Proof.
  induction d as [|[k' v'] d IH]; cbn [setitem getitem].
  - by rewrite decide_True.
  - destruct (decide (k' = k)) as [->|Hne]; cbn [getitem].
    + by rewrite decide_True.
    + by rewrite decide_False.
Qed.

Lemma getitem_setitem_ne d k v k' :
  k' <> k -> getitem (setitem d k v) k' = getitem d k'.
Proof.
  intros Hne. induction d as [|[k0 v0] d IH]; cbn [setitem getitem].
  - by rewrite decide_False.
  - destruct (decide (k0 = k)) as [->|Hne0]; cbn [getitem].
    + rewrite !decide_False by done. done.
    + destruct (decide (k0 = k')); done.
Qed.

(** Writing a key that is there keeps the keys as they are; a new key
    goes to the end. *)
Lemma keys_setitem d k v :
  map fst (setitem d k v) =
  if decide (k ∈ map fst d) then map fst d else map fst d ++ [k].
Proof.
  induction d as [|[k' v'] d IH]; cbn [setitem map fst].
  - rewrite decide_False; [done|]. by intros ?%elem_of_nil.
  - destruct (decide (k' = k)) as [->|Hne]; cbn [map fst].
    + rewrite decide_True; [done|]. by left.
    + rewrite IH. destruct (decide (k ∈ map fst d)) as [Hin|Hnin].
      * rewrite decide_True; [done|]. by right.
      * rewrite decide_False; [done|].
        intros [?|?]%elem_of_cons; congruence.
Qed.

Lemma Forall_setitem (P : string * Tool -> Prop) d k v :
  Forall P d -> P (k, v) -> Forall P (setitem d k v).
Proof.
  intros Hd Hkv. induction Hd as [|[k' v'] d Hk' Hd IH]; simpl.
  - by constructor.
  - destruct (decide (k' = k)); constructor; auto.
Qed.

Lemma wf_tools_setitem d k v :
  wf_tools d -> entry_named (k, v) -> wf_tools (setitem d k v).
Proof.
  intros [Hnodup Hall] Hkv. split; [|by apply Forall_setitem].
  rewrite keys_setitem. destruct (decide (k ∈ map fst d)); [done|].
  apply NoDup_app. split; [done|]. split; [|apply NoDup_singleton].
  intros k' Hk' ->%list_elem_of_singleton. done.
Qed.

(** What [register_tools] does on a client that holds a session: nothing
    to the world, and to the registry one [setitem] per tool found. *)
Lemma register_tools_inv mcp_client tools found w s :
  session (get_client mcp_client w) = Some s ->
  exists tools',
    register_tools mcp_client tools found w = (Ok tools', w) /\
    (forall tool, tool ∈ found ->
       exists t, getitem tools' (ti_name tool) = Some t /\
                 callable t = {| self_ref := mcp_client;
                                 tool_name := ti_name tool |}) /\
    (forall k, k ∉ map ti_name found -> getitem tools' k = getitem tools k) /\
    (exists new, map fst tools' = map fst tools ++ new) /\
    (wf_tools tools -> wf_tools tools') /\
    (handles_live tools w -> handles_live tools' w).
Proof.
  intros Hs. revert tools.
  induction found as [|tool found IH]; intros tools; simpl.
  - exists tools. split; [done|].
    split; [by intros tool ?%elem_of_nil|]. split; [done|].
    split; [exists []; by rewrite app_nil_r|]. done.
  - unfold bind, call_tool, bind, read_client. rewrite Hs; simpl.
    set (entry := {| name := ti_name tool;
                     callable := {| self_ref := mcp_client;
                                    tool_name := ti_name tool |};
                     schema := _ |}).
    destruct (IH (setitem tools (ti_name tool) entry))
      as (tools' & Hreg & Hfound & Hother & (new & Hkeys) & Hwf & Hlive).
    exists tools'. split; [exact Hreg|].
    split; [|split; [|split; [|split]]].
    + intros tool' [->|Hin]%elem_of_cons; [|by apply Hfound].
      destruct (decide (ti_name tool ∈ map ti_name found)) as [Hlater|Hlast].
      * apply list_elem_of_fmap in Hlater as (tool' & Hname & Hin).
        rewrite Hname. by apply Hfound.
      * exists entry. split; [|done].
        rewrite (Hother _ Hlast). apply getitem_setitem_eq.
    + intros k Hk. rewrite Hother.
      * apply getitem_setitem_ne. intros ->. apply Hk. by left.
      * intros Hin. apply Hk. by right.
    + rewrite Hkeys, keys_setitem.
      destruct (decide (ti_name tool ∈ map fst tools)).
      * by exists new.
      * exists (ti_name tool :: new). by rewrite <- app_assoc.
    + intros Hwf0. apply Hwf. by apply wf_tools_setitem.
    + intros Hlive0. apply Hlive. apply Forall_setitem; [done|].
      simpl. by exists s.
Qed.

(** X17: registering the tools a server advertises, on a client that
    holds a session: every advertised name ends up bound to a handle of
    this client for that name, replacing what an earlier server had
    registered under it; the entries under other names are as before, and
    the keys that were there keep their places, new ones coming after. *)
Theorem register_tools_last_wins mcp_client tools found w s :
  session (get_client mcp_client w) = Some s ->
  exists tools',
    register_tools mcp_client tools found w = (Ok tools', w) /\
    (forall tool, tool ∈ found ->
       exists t, getitem tools' (ti_name tool) = Some t /\
                 callable t = {| self_ref := mcp_client;
                                 tool_name := ti_name tool |}) /\
    (forall k, k ∉ map ti_name found -> getitem tools' k = getitem tools k) /\
    (exists new, map fst tools' = map fst tools ++ new).
Proof.
  intros Hs.
  destruct (register_tools_inv mcp_client tools found w s Hs)
    as (tools' & Hreg & Hfound & Hother & Hkeys & _).
  exists tools'. auto.
Qed.

(** X18: when the answer to [list_tools] is not a tuple of length two or
    more, no tool of that server is registered and no exception is
    raised: the registry is returned as it was. *)
Theorem discover_ignores_other_data tools mcp_client w s :
  session (get_client mcp_client w) = Some s ->
  ClientSession_list_tools E (trace w) s = Ok OtherData ->
  discover tools mcp_client w =
  (Ok tools,
   {| lists := lists w; clients := clients w; next_id := next_id w;
      trace := trace w ++ [EvListTools s] |}).
Proof.
  intros Hs Hlist.
  unfold discover, bind, get_available_tools, bind, read_client.
  rewrite Hs. unfold request; simpl. by rewrite Hlist.
Qed.

(** ** Startup *)

Lemma keeps_sessions_refl w : keeps_sessions w w.
Proof. intros c s Hs. eauto. Qed.

Lemma keeps_sessions_trans w1 w2 w3 :
  keeps_sessions w1 w2 -> keeps_sessions w2 w3 -> keeps_sessions w1 w3.
Proof. intros H12 H23 c s Hs. destruct (H12 _ _ Hs) as (s' & Hs'). eauto. Qed.

Lemma keeps_sessions_clients w w' :
  clients w' = clients w -> keeps_sessions w w'.
Proof. intros Hc c s Hs. exists s. unfold get_client in *. by rewrite Hc. Qed.

Lemma keeps_sessions_alter f self w w' :
  clients w' = alter f self (clients w) ->
  (forall cl s, session cl = Some s -> exists s', session (f cl) = Some s') ->
  keeps_sessions w w'.
Proof.
  intros Hc Hf c s Hs. unfold get_client in *. rewrite Hc.
  destruct (decide (c = self)) as [->|Hne].
  - rewrite list_lookup_alter_eq.
    destruct (clients w !! self) as [cl|]; simpl in *; [|discriminate].
    eauto.
  - rewrite list_lookup_alter_ne by done. eauto.
Qed.

Lemma handles_live_keeps tools w w' :
  keeps_sessions w w' -> handles_live tools w -> handles_live tools w'.
Proof.
  intros Hkeep Hlive. eapply Forall_impl; [exact Hlive|].
  intros kt (s & Hs). eauto.
Qed.

Lemma grows_by_startup_refl w : grows_by_startup w w.
Proof. exists []. by rewrite app_nil_r. Qed.

Lemma grows_by_startup_trans w1 w2 w3 :
  grows_by_startup w1 w2 -> grows_by_startup w2 w3 -> grows_by_startup w1 w3.
Proof.
  intros (evs & Ht & Hq) (evs' & Ht' & Hq'). exists (evs ++ evs').
  split; [by rewrite Ht', Ht, app_assoc|]. apply Forall_app. done.
Qed.

Lemma connect_startup self w r w' :
  connect self w = (r, w') ->
  grows_by_startup w w' /\ keeps_sessions w w'.
Proof.
  assert (Hset : forall t cl s,
    session cl = Some s -> exists s', session (set__client t cl) = Some s').
  { intros t cl s Hs. by exists s. }
  unfold connect, bind, read_client, fresh_id, update_client, request; simpl.
  destruct (stdio_client_aenter E (trace w) _) as [[]|e]; simpl.
  2:{ intros [= <- <-]; simpl. split.
      - eexists. split; [reflexivity|]. by repeat constructor.
      - eapply keeps_sessions_alter; [reflexivity|]. apply Hset. }
  destruct (ClientSession_aenter E _ _) as [[]|e]; simpl.
  2:{ intros [= <- <-]; simpl. split.
      - eexists. split; [by rewrite <- app_assoc|]. by repeat constructor.
      - eapply keeps_sessions_alter; [reflexivity|]. apply Hset. }
  intros [= <- <-]; simpl. split.
  - eexists. split; [by rewrite <- !app_assoc|]. by repeat constructor.
  - eapply keeps_sessions_trans.
    + eapply (keeps_sessions_alter _ self w
                {| lists := lists w;
                   clients := alter (set__client (Some (next_id w))) self (clients w);
                   next_id := next_id w; trace := trace w |});
        [reflexivity|apply Hset].
    + eapply keeps_sessions_alter; [reflexivity|].
      intros cl s Hs. by eexists.
Qed.

Lemma aexit_startup self w r w' :
  __aexit__ self w = (r, w') ->
  grows_by_startup w w' /\ clients w' = clients w.
Proof.
  unfold __aexit__, bind, read_client.
  destruct (session (get_client self w)) as [s|].
  - unfold request at 1; simpl.
    destruct (ClientSession_aexit E (trace w) s) as [[]|e]; simpl.
    2:{ intros [= <- <-]; simpl. split; [|done].
        eexists. split; [reflexivity|]. by repeat constructor. }
    unfold get_client at 1; simpl. fold (get_client self w).
    destruct (_client (get_client self w)) as [t|].
    + unfold request. intros [= <- <-]; simpl. split; [|done].
      eexists. split; [by rewrite <- app_assoc|]. by repeat constructor.
    + intros [= <- <-]; simpl. split; [|done].
      eexists. split; [reflexivity|]. by repeat constructor.
  - simpl. destruct (_client (get_client self w)) as [t|].
    + unfold request. intros [= <- <-]; simpl. split; [|done].
      eexists. split; [reflexivity|]. by repeat constructor.
    + intros [= <- <-]. split; [apply grows_by_startup_refl|done].
Qed.

Lemma discover_startup tools mcp_client w r w' :
  discover tools mcp_client w = (r, w') ->
  grows_by_startup w w' /\ clients w' = clients w /\
  forall tools', r = Ok tools' ->
    (wf_tools tools -> wf_tools tools') /\
    (handles_live tools w -> handles_live tools' w').
Proof.
  unfold discover, bind, get_available_tools, bind, read_client.
  destruct (session (get_client mcp_client w)) as [s|] eqn:Hs; simpl.
  2:{ intros [= <- <-]. split; [apply grows_by_startup_refl|].
      split; [done|discriminate]. }
  set (w1 := {| lists := lists w; clients := clients w; next_id := next_id w;
                trace := trace w ++ [EvListTools s] |}).
  assert (Hgrow : grows_by_startup w w1).
  { eexists. split; [reflexivity|]. by repeat constructor. }
  assert (Hkeep : keeps_sessions w w1) by by apply keeps_sessions_clients.
  destruct (ClientSession_list_tools E (trace w) s) as [[found|]|e]; simpl.
  - assert (Hs1 : session (get_client mcp_client w1) = Some s) by done.
    destruct (register_tools_inv mcp_client tools found w1 s Hs1)
      as (tools1 & Hreg & _ & _ & _ & Hwf & Hlive).
    fold w1. rewrite Hreg. intros [= <- <-].
    split; [done|]. split; [done|]. intros tools' [= <-].
    split; [done|]. intros Hl. apply Hlive. by eapply handles_live_keeps.
  - intros [= <- <-]. split; [done|]. split; [done|].
    intros tools' [= <-]. split; [done|]. by apply handles_live_keeps.
  - intros [= <- <-]. split; [done|]. split; [done|discriminate].
Qed.

Lemma async_with_startup tools self w r w' :
  async_with self (discover tools) w = (r, w') ->
  grows_by_startup w w' /\
  forall tools', r = Ok tools' ->
    (wf_tools tools -> wf_tools tools') /\
    (handles_live tools w -> handles_live tools' w').
Proof.
  unfold async_with, __aenter__, bind.
  destruct (connect self w) as [[[]|e] w1] eqn:Hconn;
    destruct (connect_startup _ _ _ _ Hconn) as (Hg1 & Hk1).
  2:{ intros [= <- <-]. split; [done|discriminate]. }
  simpl.
  destruct (discover tools self w1) as [rb w2] eqn:Hbody.
  destruct (discover_startup _ _ _ _ _ Hbody) as (Hg2 & Hc2 & Hinv).
  destruct (__aexit__ self w2) as [rx w3] eqn:Hexit.
  destruct (aexit_startup _ _ _ _ Hexit) as (Hg3 & Hc3).
  assert (Hg : grows_by_startup w w3).
  { eapply grows_by_startup_trans; [exact Hg1|].
    eapply grows_by_startup_trans; [exact Hg2|exact Hg3]. }
  destruct rb as [tools1|e]; destruct rx as [[]|e']; intros [= <- <-];
    (split; [done|]); try discriminate.
  intros tools' [= <-]. destruct (Hinv tools1 eq_refl) as (Hwf & Hlive).
  split; [done|]. intros Hl.
  apply (handles_live_keeps tools1 w2 w3); [by apply keeps_sessions_clients|].
  apply Hlive. by eapply handles_live_keeps.
Qed.

Lemma init_keeps_sessions p w : keeps_sessions w (__init__ p w).2.
Proof.
  intros c s Hs. exists s. unfold get_client in *; simpl.
  destruct (clients w !! c) as [cl|] eqn:Hcl; simpl in Hs; [|discriminate].
  by rewrite (lookup_app_l_Some _ _ _ _ Hcl).
Qed.

Lemma setup_startup servers mcp_clients tools w r w' :
  setup servers mcp_clients tools w = (r, w') ->
  grows_by_startup w w' /\
  forall cs tools', r = Ok (cs, tools') ->
    (wf_tools tools -> wf_tools tools') /\
    (handles_live tools w -> handles_live tools' w').
Proof.
  revert mcp_clients tools w.
  induction servers as [|server servers IH]; intros mcp_clients tools w; simpl.
  - intros [= <- <-]. split; [apply grows_by_startup_refl|].
    by intros cs tools' [= _ <-].
  - unfold bind at 1.
    set (p := {| command := server_command server; args := server_args server;
                 env := server_env server |}).
    pose proof (init_keeps_sessions p w) as Hk0.
    destruct (__init__ p w) as [r0 w0] eqn:Hinit.
    assert (r0 = Ok (length (clients w)) /\ trace w0 = trace w) as [-> Ht0].
    { revert Hinit. unfold __init__. by intros [= <- <-]. }
    simpl in Hk0. unfold bind at 1.
    destruct (async_with (length (clients w)) (discover tools) w0)
      as [rw w1] eqn:Hwith.
    destruct (async_with_startup _ _ _ _ _ Hwith) as (Hg1 & Hinv1).
    assert (Hg01 : grows_by_startup w w1).
    { destruct Hg1 as (evs & Ht & Hq). exists evs. by rewrite Ht, Ht0. }
    destruct rw as [tools1|e].
    + intros Hrest. destruct (IH _ _ _ Hrest) as (Hg2 & Hinv2).
      split; [by eapply grows_by_startup_trans|].
      intros cs tools' Hr. destruct (Hinv1 tools1 eq_refl) as (Hwf1 & Hl1).
      destruct (Hinv2 cs tools' Hr) as (Hwf2 & Hl2).
      split; [auto|]. intros Hl. apply Hl2, Hl1.
      by eapply handles_live_keeps.
    + intros [= <- <-]. split; [done|discriminate].
Qed.

(** X19: a startup that fails at one server stops there: the servers
    configured after it are never contacted, and the result is the same
    whatever follows it in the configuration. *)
Theorem first_failure_stops_setup servers later mcp_clients tools w e w' :
  setup servers mcp_clients tools w = (Raise e, w') ->
  setup (servers ++ later) mcp_clients tools w = (Raise e, w').
Proof.
  revert mcp_clients tools w.
  induction servers as [|server servers IH]; intros mcp_clients tools w; simpl.
  - discriminate.
  - unfold bind.
    destruct (__init__ _ w) as [[c|e0] w0]; [|done].
    destruct (async_with c (discover tools) w0) as [[tools1|e1] w1]; [|done].
    apply IH.
Qed.

Lemma getitem_elem_of d k t : getitem d k = Some t -> (k, t) ∈ d.
Proof.
  induction d as [|[k' v'] d IH]; cbn [getitem]; [discriminate|].
  destruct (decide (k' = k)) as [->|Hne].
  - intros [= ->]. by left.
  - intros Hget. right. by apply IH.
Qed.

Lemma manifest_names tools :
  Forall entry_named tools ->
  map fn_name (map schema (values tools)) = map fst tools.
Proof.
  induction 1 as [|[k t] tools (_ & Hk & _) _ IH]; [done|].
  unfold values in *. simpl in *. by rewrite Hk, IH.
Qed.

Lemma chat_requests_startup w w' :
  grows_by_startup w w' -> chat_requests (trace w') = chat_requests (trace w).
Proof.
  intros (evs & -> & Hevs). rewrite chat_requests_app.
  assert (chat_requests evs = []) as ->; [|by rewrite app_nil_r].
  induction Hevs as [|ev evs Hev _ IH]; [done|]. by destruct ev.
Qed.

(** ** The prompt loop *)

(** The prompt loop changes no client and sends only the requests of its
    turns. *)
Lemma prompt_loop_frame inputs tools messages w :
  clients (prompt_loop inputs tools messages w).2 = clients w /\
  exists evs,
    trace (prompt_loop inputs tools messages w).2 = trace w ++ evs /\
    Forall (turn_event (clients w)) evs.
Proof.
  assert (Hnone : clients w = clients w /\
    exists evs, trace w = trace w ++ evs /\ Forall (turn_event (clients w)) evs).
  { split; [done|]. exists []. by rewrite app_nil_r. }
  revert messages w Hnone.
  induction inputs as [|input inputs IH]; intros messages w Hnone; [done|].
  destruct input as [query| |e]; simpl; [|done|by apply IH].
  destruct (is_quit query); [done|].
  destruct (agent_loop query tools messages w) as [r w'] eqn:Hturn.
  destruct (agent_loop_frame _ _ _ _ _ _ Hturn) as (Hc & evs & Ht & Hevs).
  assert (Hrest : forall messages',
    clients (prompt_loop inputs tools messages' w').2 = clients w /\
    exists evs0,
      trace (prompt_loop inputs tools messages' w').2 = trace w ++ evs0 /\
      Forall (turn_event (clients w)) evs0).
  { intros messages'.
    destruct (IH messages' w') as (Hc' & evs' & Ht' & Hevs').
    { split; [done|]. exists []. by rewrite app_nil_r. }
    split; [congruence|]. exists (evs ++ evs').
    split; [by rewrite Ht', Ht, app_assoc|].
    apply Forall_app. split; [done|]. by rewrite <- Hc. }
  destruct r as [[text l]|e]; apply Hrest.
Qed.

(** X20: the registry [main] builds has each name once, and every entry
    carries its key as the tool's name, in its schema and in its handle;
    so the manifest sent to the model lists every registered name once, in
    the order of the registry. *)
Theorem registry_well_formed inputs w status tools messages w' :
  main inputs w = (Session status tools messages, w') ->
  NoDup (map fst tools) /\
  Forall entry_named tools /\
  map fn_name (map schema (values tools)) = map fst tools.
Proof.
  unfold main.
  destruct (setup mcp_servers [] [] w) as [[[cs tools0]|e] w1] eqn:Hsetup;
    [|discriminate].
  destruct (setup_startup _ _ _ _ _ _ Hsetup) as (_ & Hinv).
  destruct (Hinv cs tools0 eq_refl) as (Hwf & _).
  destruct (prompt_loop inputs tools0 None w1) as [[st m] w2].
  intros [= _ <- _ _].
  destruct Hwf as (Hnodup & Hall).
  { split; [apply NoDup_nil_2|constructor]. }
  split; [done|]. split; [done|]. by apply manifest_names.
Qed.

(** X21: in a session, every handle of the registry belongs to a client
    that holds a session, at the prompt and after any number of turns: a
    registered handle that is called always gets as far as sending its
    request. *)
Theorem registered_handles_hold_sessions
    inputs w status tools messages w' k t :
  main inputs w = (Session status tools messages, w') ->
  getitem tools k = Some t ->
  exists s, session (get_client (self_ref (callable t)) w') = Some s.
Proof.
  unfold main.
  destruct (setup mcp_servers [] [] w) as [[[cs tools0]|e] w1] eqn:Hsetup;
    [|discriminate].
  destruct (setup_startup _ _ _ _ _ _ Hsetup) as (_ & Hinv).
  destruct (Hinv cs tools0 eq_refl) as (_ & Hlive).
  pose proof (prompt_loop_frame inputs tools0 None w1) as (Hc & _).
  destruct (prompt_loop inputs tools0 None w1) as [[st m] w2].
  intros [= _ <- _ <-] Hget. simpl in Hc.
  assert (Hlive2 : handles_live tools0 w2).
  { apply (handles_live_keeps tools0 w1 w2);
      [by apply keeps_sessions_clients|].
    apply Hlive. constructor. }
  apply getitem_elem_of in Hget.
  exact (proj1 (Forall_forall _ _) Hlive2 _ Hget).
Qed.

(** X22: when startup fails, the session never begins: the outcome is
    the same whatever the console would have given, and nothing was sent
    but requests of startup, so no chat-completion request and no
    [call_tool] request. *)
Theorem startup_failure_ends_session inputs w e w' :
  main inputs w = (Startup_failed e, w') ->
  (forall inputs', main inputs' w = (Startup_failed e, w')) /\
  grows_by_startup w w' /\
  chat_requests (trace w') = chat_requests (trace w).
Proof.
  unfold main.
  destruct (setup mcp_servers [] [] w) as [[[cs tools0]|e0] w1] eqn:Hsetup.
  - destruct (prompt_loop inputs tools0 None w1) as [[st m] w2]. discriminate.
  - intros [= <- <-].
    destruct (setup_startup _ _ _ _ _ _ Hsetup) as (Hg & _).
    split; [done|]. split; [done|]. by apply chat_requests_startup.
Qed.

(** X23: when the first thing the console gives is a quit word or an
    interrupt, the session ends as startup left it: the world is the one
    an empty input leaves, no chat-completion request has been sent, and
    the rest of the input is not read. *)
Theorem quit_sends_no_chat_request input rest w :
  ends_session input = true ->
  (main (input :: rest) w).2 = (main [] w).2 /\
  chat_requests (trace (main (input :: rest) w).2) = chat_requests (trace w) /\
  forall tools messages,
    (main (input :: rest) w).1 <> Session AtPrompt tools messages.
Proof.
  intros Hends. unfold main.
  destruct (setup mcp_servers [] [] w) as [[[cs tools0]|e0] w1] eqn:Hsetup;
    destruct (setup_startup _ _ _ _ _ _ Hsetup) as (Hg & _).
  - assert (Hloop : prompt_loop (input :: rest) tools0 None w1
                    = (Exited, None, w1)).
    { destruct input as [text| |e]; simpl in *; [by rewrite Hends|done|done]. }
    rewrite Hloop. simpl. split; [done|].
    split; [by apply chat_requests_startup|]. discriminate.
  - simpl. split; [done|].
    split; [by apply chat_requests_startup|]. discriminate.
Qed.

(** X24: the prompt loop on more input: when the loop has exited on the
    input so far, more input changes nothing; otherwise the loop goes on
    from the history variable and the world it had reached. *)
Theorem prompt_loop_app inputs more tools messages w :
  prompt_loop (inputs ++ more) tools messages w =
  match prompt_loop inputs tools messages w with
  | (Exited, messages', w') => (Exited, messages', w')
  | (AtPrompt, messages', w') => prompt_loop more tools messages' w'
  end.
Proof.
  revert messages w.
  induction inputs as [|input inputs IH]; intros messages w; [done|].
  destruct input as [query| |e]; simpl; [|done|apply IH].
  destruct (is_quit query); [done|].
  destruct (agent_loop query tools messages w) as [[[text l]|e] w']; apply IH.
Qed.

(** X25: the prompt loop ends on a quit word or an interrupt and on
    nothing else: a turn that raises, or an [input()] that raises, never
    ends it. *)
Theorem prompt_loop_ends_only_on_quit inputs tools messages w :
  (prompt_loop inputs tools messages w).1.1 = Exited <->
  Exists (fun input => ends_session input = true) inputs.
Proof.
  revert messages w.
  induction inputs as [|input inputs IH]; intros messages w.
  - simpl. split; [discriminate|]. by intros ?%Exists_nil.
  - rewrite Exists_cons.
    destruct input as [query| |e]; simpl.
    + destruct (is_quit query) eqn:Hq; simpl.
      * split; auto.
      * destruct (agent_loop query tools messages w) as [[[text l]|e] w'];
          rewrite IH; split; auto; intros [?|?]; done.
    + split; auto.
    + rewrite IH. split; auto. intros [?|?]; done.
Qed.

(** * Handles and the scope of their client *)





Section NoTuple.

(** What [list_tools] answers is never a tuple of length two or more, so
    the test of line 115 fails for every server. *)
Hypothesis list_tools_no_tuple :
  forall tr s second, ClientSession_list_tools E tr s <> Ok (TupleData second).





End NoTuple.

End Program.

(** * A session with one weather server

    A scripted outside, for running the program on concrete inputs. *)

Module Demo.

Definition quoted (s : string) : string :=
  String dquote (s +:+ String dquote "").

(** The JSON text of an object with the one key [city]. *)
Definition city_arguments (city : string) : string :=
  "{" +:+ quoted "city" +:+ ": " +:+ quoted city +:+ "}".

Definition json_loads (s : string) : Result json :=
  if decide (s = city_arguments "Paris") then Ok (JDict [("city", JStr "Paris")])
  else if decide (s = city_arguments "Rome") then Ok (JDict [("city", JStr "Rome")])
  else if decide (s = city_arguments "Atlantis") then
    Ok (JDict [("city", JStr "Atlantis")])
  else if decide (s = "[]") then Ok (JList [])
  else Raise JSONDecodeError.

Definition call_paris : ToolCall :=
  {| tc_id := "call_1"; tc_function_name := "get_weather";
     tc_function_arguments := city_arguments "Paris" |}.

Definition call_rome : ToolCall :=
  {| tc_id := "call_2"; tc_function_name := "get_weather";
     tc_function_arguments := city_arguments "Rome" |}.

Definition call_atlantis : ToolCall :=
  {| tc_id := "call_2"; tc_function_name := "get_weather";
     tc_function_arguments := city_arguments "Atlantis" |}.

Definition asks (calls : list ToolCall) : ChatCompletionMessage :=
  {| content := None; tool_calls := calls |}.

Definition says (text : string) : ChatCompletionMessage :=
  {| content := Some text; tool_calls := [] |}.

(** The model: it asks for the weather when the user does, and answers
    once it has a tool result. *)
Definition model (tr : list Event) (req : ChatRequest) : Result ChatCompletion :=
  match last (req_messages req) with
  | Some (MsgUser q) =>
      if decide (q = "What's the weather in Paris?") then
        Ok {| choices := [asks [call_paris]] |}
      else if decide (q = "Compare Paris and Rome") then
        Ok {| choices := [asks [call_paris; call_rome]] |}
      else if decide (q = "Compare Paris and Atlantis") then
        Ok {| choices := [asks [call_paris; call_atlantis]] |}
      else Ok {| choices := [says "Hello!"] |}
  | Some (MsgTool _ _ _) => Ok {| choices := [says "Here is the weather."] |}
  | _ => Raise (LibraryError "bad request")
  end.

Definition get_weather : ToolInfo :=
  {| ti_name := "get_weather";
     ti_description := Some "Current weather of a city";
     ti_inputSchema := JDict [("type", JStr "object")] |}.

(** The weather server knows every city but Atlantis. *)
Definition weather (tr : list Event) (s : nat) (tool : string) (arguments : kwargs)
    : Result CallToolResult :=
  if decide (tool = "get_weather") then
    match arguments with
    | [(_, JStr "Atlantis")] => Raise (LibraryError "unknown city")
    | _ => Ok {| result_content := [TextContent "18C, cloudy"] |}
    end
  else Raise (LibraryError "unknown tool").

Definition outside : External :=
  {| chat_completions_create := model;
     stdio_client_aenter := fun _ _ => Ok tt;
     ClientSession_aenter := fun _ _ => Ok tt;
     ClientSession_initialize := fun _ _ => Ok tt;
     ClientSession_list_tools := fun _ _ => Ok (TupleData [get_weather]);
     ClientSession_call_tool := weather;
     ClientSession_aexit := fun _ _ => Ok tt;
     stdio_client_aexit := fun _ _ => Ok tt |}.

(** The same, with a server whose handshake fails. *)
Definition outside_no_handshake : External :=
  {| chat_completions_create := model;
     stdio_client_aenter := fun _ _ => Ok tt;
     ClientSession_aenter := fun _ _ => Ok tt;
     ClientSession_initialize := fun _ _ => Raise (LibraryError "handshake failed");
     ClientSession_list_tools := fun _ _ => Ok (TupleData [get_weather]);
     ClientSession_call_tool := weather;
     ClientSession_aexit := fun _ _ => Ok tt;
     stdio_client_aexit := fun _ _ => Ok tt |}.

Definition MODEL : string := "some-model".

Definition SYSTEM_PROMPT_format (tools : string) : Result string :=
  Ok ("You can use these tools: " +:+ tools).

Definition mcp_servers : list ServerConfig :=
  [{| server_name := "weather"; server_command := "python";
      server_args := ["weather.py"]; server_env := [] |}].

Definition params : StdioServerParameters :=
  {| command := "python"; args := ["weather.py"]; env := [] |}.

Definition agent_loop := agent_loop outside json_loads MODEL SYSTEM_PROMPT_format.
Definition first_exchange := first_exchange outside MODEL SYSTEM_PROMPT_format.
Definition main := main outside json_loads MODEL SYSTEM_PROMPT_format mcp_servers.

(** The registry and the world that [main] has when it reaches the prompt. *)
Definition tools : Tools :=
  match main [] start with
  | (Session _ tools _, _) => tools
  | _ => []
  end.

Definition ready : World := (main [] start).2.

Definition system_text : string :=
  "You can use these tools: get_weather: Current weather of a city".

Definition weather_text : string := "18C, cloudy".

(** The first exchange of a first turn that asks about Paris and Atlantis,
    and the worlds the turn goes through: after the call for Paris, and
    after the call for Atlantis has failed. *)
Definition compare_query : string := "Compare Paris and Atlantis".

Definition compare_asked : World := (first_exchange compare_query tools None ready).2.

Definition compare_paris_done : World :=
  (tool_rounds outside json_loads tools 0 (asks [call_paris; call_atlantis])
     [call_paris] compare_asked).2.

Definition compare_failed : World :=
  (call outside {| self_ref := 0; tool_name := "get_weather" |}
     [("city", JStr "Atlantis")] compare_paris_done).2.

(** A first turn that asks about Paris and Rome: after the first response,
    and at its end. *)
Definition rome_query : string := "Compare Paris and Rome".

Definition rome_asked : World := (first_exchange rome_query tools None ready).2.

Definition rome_done : World := (agent_loop rome_query tools None ready).2.

(** A first turn that asks about Paris alone. *)
Definition paris_query : string := "What's the weather in Paris?".

Definition paris_asked : World := (first_exchange paris_query tools None ready).2.

Definition paris_called : World :=
  (call outside {| self_ref := 0; tool_name := "get_weather" |}
     [("city", JStr "Paris")] paris_asked).2.

(** A first turn that asks for no tool. *)
Definition hello_asked : World := (first_exchange "Hello" tools None ready).2.

(** A first turn with no server configured: the world after seeding. *)
Definition seeded_empty : World := (seed SYSTEM_PROMPT_format [] None start).2.

(** A client that has been created and connected once. *)
Definition connected_once : World :=
  (connect outside 0 (__init__ params start).2).2.

(** A client whose [connect] was tried against the server whose handshake
    fails. *)
Definition handshake_failed : World :=
  (connect outside_no_handshake 0 (__init__ params start).2).2.

End Demo.

(** * The weather server and the model, misbehaving

    Variants of the scripted outside in which one thing goes wrong. *)

Module Faults.

(** A call for a tool no server has. *)
Definition call_clock : ToolCall :=
  {| tc_id := "call_2"; tc_function_name := "get_time";
     tc_function_arguments := Demo.city_arguments "Paris" |}.

(** A call whose arguments are not JSON. *)
Definition call_bad : ToolCall :=
  {| tc_id := "call_2"; tc_function_name := "get_weather";
     tc_function_arguments := "{" |}.

(** A call whose arguments are a JSON list. *)
Definition call_list : ToolCall :=
  {| tc_id := "call_2"; tc_function_name := "get_weather";
     tc_function_arguments := "[]" |}.

Definition clock_query : string := "Weather and time in Paris?".
Definition bad_query : string := "Weather in Paris, badly?".
Definition list_query : string := "Weather in Paris, as a list?".

(** A model that asks for the weather in Paris and then makes one of the
    three calls above. *)
Definition model (tr : list Event) (req : ChatRequest) : Result ChatCompletion :=
  match last (req_messages req) with
  | Some (MsgUser q) =>
      if decide (q = clock_query) then
        Ok {| choices := [Demo.asks [Demo.call_paris; call_clock]] |}
      else if decide (q = bad_query) then
        Ok {| choices := [Demo.asks [Demo.call_paris; call_bad]] |}
      else if decide (q = list_query) then
        Ok {| choices := [Demo.asks [Demo.call_paris; call_list]] |}
      else Demo.model tr req
  | _ => Demo.model tr req
  end.

Definition outside : External :=
  {| chat_completions_create := model;
     stdio_client_aenter := fun _ _ => Ok tt;
     ClientSession_aenter := fun _ _ => Ok tt;
     ClientSession_initialize := fun _ _ => Ok tt;
     ClientSession_list_tools := fun _ _ => Ok (TupleData [Demo.get_weather]);
     ClientSession_call_tool := Demo.weather;
     ClientSession_aexit := fun _ _ => Ok tt;
     stdio_client_aexit := fun _ _ => Ok tt |}.

(** The server process cannot be started. *)
Definition no_transport : External :=
  {| chat_completions_create := Demo.model;
     stdio_client_aenter := fun _ _ => Raise (LibraryError "spawn failed");
     ClientSession_aenter := fun _ _ => Ok tt;
     ClientSession_initialize := fun _ _ => Ok tt;
     ClientSession_list_tools := fun _ _ => Ok (TupleData [Demo.get_weather]);
     ClientSession_call_tool := Demo.weather;
     ClientSession_aexit := fun _ _ => Ok tt;
     stdio_client_aexit := fun _ _ => Ok tt |}.

(** The session cannot be exited. *)
Definition exit_fails : External :=
  {| chat_completions_create := Demo.model;
     stdio_client_aenter := fun _ _ => Ok tt;
     ClientSession_aenter := fun _ _ => Ok tt;
     ClientSession_initialize := fun _ _ => Ok tt;
     ClientSession_list_tools := fun _ _ => Ok (TupleData [Demo.get_weather]);
     ClientSession_call_tool := Demo.weather;
     ClientSession_aexit := fun _ _ => Raise (LibraryError "exit failed");
     stdio_client_aexit := fun _ _ => Ok tt |}.

(** The server answers every call with no content. *)
Definition empty_content : External :=
  {| chat_completions_create := Demo.model;
     stdio_client_aenter := fun _ _ => Ok tt;
     ClientSession_aenter := fun _ _ => Ok tt;
     ClientSession_initialize := fun _ _ => Ok tt;
     ClientSession_list_tools := fun _ _ => Ok (TupleData [Demo.get_weather]);
     ClientSession_call_tool := fun _ _ _ _ => Ok {| result_content := [] |};
     ClientSession_aexit := fun _ _ => Ok tt;
     stdio_client_aexit := fun _ _ => Ok tt |}.

(** The server cannot list its tools. *)
Definition list_fails : External :=
  {| chat_completions_create := Demo.model;
     stdio_client_aenter := fun _ _ => Ok tt;
     ClientSession_aenter := fun _ _ => Ok tt;
     ClientSession_initialize := fun _ _ => Ok tt;
     ClientSession_list_tools := fun _ _ => Raise (LibraryError "no tools");
     ClientSession_call_tool := Demo.weather;
     ClientSession_aexit := fun _ _ => Ok tt;
     stdio_client_aexit := fun _ _ => Ok tt |}.

(** The answer to [list_tools] is not a tuple. *)
Definition other_data : External :=
  {| chat_completions_create := Demo.model;
     stdio_client_aenter := fun _ _ => Ok tt;
     ClientSession_aenter := fun _ _ => Ok tt;
     ClientSession_initialize := fun _ _ => Ok tt;
     ClientSession_list_tools := fun _ _ => Ok OtherData;
     ClientSession_call_tool := Demo.weather;
     ClientSession_aexit := fun _ _ => Ok tt;
     stdio_client_aexit := fun _ _ => Ok tt |}.

(** A template with a placeholder the program does not fill. *)
Definition broken_template (tools : string) : Result string :=
  Raise (KeyError "user").

Definition new_client : World := (__init__ Demo.params start).2.

Definition weather_tool : Tool :=
  {| name := "get_weather";
     callable := {| self_ref := 0; tool_name := "get_weather" |};
     schema := {| fn_name := "get_weather";
                  fn_description := Some "Current weather of a city";
                  fn_parameters := JDict [("type", JStr "object")] |} |}.

Definition agent_loop :=
  agent_loop outside Demo.json_loads Demo.MODEL Demo.SYSTEM_PROMPT_format.

Definition first_exchange :=
  first_exchange outside Demo.MODEL Demo.SYSTEM_PROMPT_format.

(** The worlds of the three turns that go wrong at their second call:
    after the first response, and after the call for Paris. *)
Definition asked (query : string) : World :=
  (first_exchange query Demo.tools None Demo.ready).2.

Definition paris_done (query : string) (second : ToolCall) : World :=
  (tool_rounds outside Demo.json_loads Demo.tools 0
     (Demo.asks [Demo.call_paris; second]) [Demo.call_paris] (asked query)).2.

(** The session after a first turn that said hello. *)
Definition after_hello : World := (Demo.main [Line "Hello"] start).2.

End Faults.

(** * The session with the weather server, run *)

(** C1: the first response asks for two tools.  The turn goes through, and
    the history holds the assistant message with the two requests twice,
    once before each tool result, where the claim has it once. *)
Theorem assistant_message_repeated_per_call :
  exists w',
    Demo.agent_loop "Compare Paris and Rome" Demo.tools None Demo.ready
    = (Ok (Some "Here is the weather.", 0), w') /\
    deref 0 w' =
      [MsgSystem Demo.system_text;
       MsgUser "Compare Paris and Rome";
       MsgCompletion (Demo.asks [Demo.call_paris; Demo.call_rome]);
       MsgTool "call_1" "get_weather" (json_dumps Demo.weather_text);
       MsgCompletion (Demo.asks [Demo.call_paris; Demo.call_rome]);
       MsgTool "call_2" "get_weather" (json_dumps Demo.weather_text);
       MsgAssistant (Some "Here is the weather.")].
Proof. eexists. split; vm_compute; reflexivity. Qed.

(** One server whose answer to [list_tools] is a tuple, as the scripted
    server's is, and one question about the weather.  The session of the
    server is entered, asked for its tools and exited during startup; the
    handle registered for its tool is called in the turn, after that exit. *)
Theorem handle_called_after_session_exit :
  let tr := trace (Demo.main [Line "What's the weather in Paris?"] start).2 in
  tr !! 1 = Some (EvSessionEnter 1 0) /\
  tr !! 4 = Some (EvSessionExit 1) /\
  tr !! 7 = Some (EvCallTool 1 "get_weather" [("city", JStr "Paris")]) /\
  calls_in_scope [] tr = false.
Proof. vm_compute. repeat split; reflexivity. Qed.

(** C3, against the claim as it is written: the handle returns the text
    [18C, cloudy], and the content of the tool-result message is another
    string, that text inside double quotes. *)
Lemma tool_result_content_not_verbatim :
  exists w',
    call Demo.outside {| self_ref := 0; tool_name := "get_weather" |}
      [("city", JStr "Paris")] Demo.paris_asked
    = (Ok "18C, cloudy", Demo.paris_called) /\
    Demo.agent_loop Demo.paris_query Demo.tools None Demo.ready
    = (Ok (Some "Here is the weather.", 0), w') /\
    exists text,
      deref 0 w' !! 3 = Some (MsgTool "call_1" "get_weather" text) /\
      text <> "18C, cloudy".
Proof.
  eexists. split; [vm_compute; reflexivity|].
  split; [vm_compute; reflexivity|].
  eexists. split; [vm_compute; reflexivity|]. discriminate.
Qed.

(** The turn about Paris: one call, and its result encoded. *)
Lemma requested_tool_called_once_result_encoded_witness :
  exists s w',
    Demo.agent_loop Demo.paris_query Demo.tools None Demo.ready
    = (Ok (Some "Here is the weather.", 0), w') /\
    trace w' =
      trace Demo.paris_asked
      ++ [EvCallTool s "get_weather" [("city", JStr "Paris")];
          EvChat (second_request Demo.MODEL
                    (deref 0 Demo.paris_asked
                     ++ round_messages (Demo.asks [Demo.call_paris])
                          Demo.call_paris "18C, cloudy"))] /\
    deref 0 w' =
      deref 0 Demo.paris_asked
      ++ [MsgCompletion (Demo.asks [Demo.call_paris]);
          MsgTool "call_1" "get_weather" (json_dumps "18C, cloudy");
          MsgAssistant (Some "Here is the weather.")].
Proof.
  apply (requested_tool_called_once_result_encoded
           Demo.outside Demo.json_loads Demo.MODEL Demo.SYSTEM_PROMPT_format
           Demo.paris_query Demo.tools None Demo.ready 0
           {| choices := [Demo.asks [Demo.call_paris]] |} Demo.paris_asked
           (Demo.asks [Demo.call_paris]) [] Demo.call_paris "get_weather"
           [("city", JStr "Paris")]
           {| name := "get_weather";
              callable := {| self_ref := 0; tool_name := "get_weather" |};
              schema := {| fn_name := "get_weather";
                           fn_description := Some "Current weather of a city";
                           fn_parameters := JDict [("type", JStr "object")] |} |}
           "18C, cloudy" Demo.paris_called
           {| choices := [Demo.says "Here is the weather."] |}
           (Demo.says "Here is the weather.") []);
    vm_compute; reflexivity.
Defined.

(** C4: the second turn of a session fails in its second tool call.  The
    variable [messages] of [main] still names the list of the first turn,
    and that list now ends with the user's message of the failed turn, the
    assistant message with the requests and the first tool result. *)
Theorem failed_turn_stays_in_history :
  let before := Demo.main [Line "Hello"] start in
  let after := Demo.main [Line "Hello"; Line Demo.compare_query] start in
  before.1 = Session AtPrompt Demo.tools (Some 0) /\
  after.1 = Session AtPrompt Demo.tools (Some 0) /\
  Demo.agent_loop Demo.compare_query Demo.tools (Some 0) before.2
  = (Raise (LibraryError "unknown city"), after.2) /\
  history (Some 0) before.2 =
    [MsgSystem Demo.system_text; MsgUser "Hello"; MsgAssistant (Some "Hello!")] /\
  history (Some 0) after.2 =
    history (Some 0) before.2
    ++ [MsgUser Demo.compare_query;
        MsgCompletion (Demo.asks [Demo.call_paris; Demo.call_atlantis]);
        MsgTool "call_1" "get_weather" (json_dumps Demo.weather_text)].
Proof. vm_compute. repeat split; reflexivity. Qed.

(** The turn about Paris and Rome: two requests, two results, same ids. *)
Lemma tool_results_follow_requests_witness :
  tool_result_ids
    (drop (length (deref 0 Demo.rome_asked)) (deref 0 Demo.rome_done))
  = map tc_id [Demo.call_paris; Demo.call_rome].
Proof.
  apply (tool_results_follow_requests
           Demo.outside Demo.json_loads Demo.MODEL Demo.SYSTEM_PROMPT_format
           Demo.rome_query Demo.tools None Demo.ready 0
           {| choices := [Demo.asks [Demo.call_paris; Demo.call_rome]] |}
           Demo.rome_asked (Demo.asks [Demo.call_paris; Demo.call_rome]) []
           (Some "Here is the weather.") 0 Demo.rome_done);
    vm_compute; reflexivity.
Defined.

(** The turn about Paris and Atlantis: the second handle raises. *)
Lemma failed_handle_ends_turn_witness :
  Demo.agent_loop Demo.compare_query Demo.tools None Demo.ready
  = (Raise (LibraryError "unknown city"), Demo.compare_failed) /\
  chat_requests (trace Demo.compare_failed) =
    chat_requests (trace Demo.ready)
    ++ [first_request Demo.MODEL Demo.tools (deref 0 Demo.compare_asked)].
Proof.
  apply (failed_handle_ends_turn
           Demo.outside Demo.json_loads Demo.MODEL Demo.SYSTEM_PROMPT_format
           Demo.compare_query Demo.tools None Demo.ready 0
           {| choices := [Demo.asks [Demo.call_paris; Demo.call_atlantis]] |}
           Demo.compare_asked
           (Demo.asks [Demo.call_paris; Demo.call_atlantis]) []
           [Demo.call_paris] Demo.call_atlantis [] Demo.compare_paris_done
           [("city", JStr "Atlantis")]
           {| name := "get_weather";
              callable := {| self_ref := 0; tool_name := "get_weather" |};
              schema := {| fn_name := "get_weather";
                           fn_description := Some "Current weather of a city";
                           fn_parameters := JDict [("type", JStr "object")] |} |});
    vm_compute; reflexivity.
Defined.

(** The turn that says hello: no tool call. *)
Lemma no_tool_calls_one_request_witness :
  exists w',
    Demo.agent_loop "Hello" Demo.tools None Demo.ready
    = (Ok (Some "Hello!", 0), w') /\
    trace w' =
      trace Demo.ready
      ++ [EvChat (first_request Demo.MODEL Demo.tools (deref 0 Demo.hello_asked))] /\
    chat_requests (trace w') =
      chat_requests (trace Demo.ready)
      ++ [first_request Demo.MODEL Demo.tools (deref 0 Demo.hello_asked)] /\
    deref 0 w' = deref 0 Demo.hello_asked ++ [MsgAssistant (Some "Hello!")].
Proof.
  apply (no_tool_calls_one_request
           Demo.outside Demo.json_loads Demo.MODEL Demo.SYSTEM_PROMPT_format
           "Hello" Demo.tools None Demo.ready 0
           {| choices := [Demo.says "Hello!"] |} Demo.hello_asked
           (Demo.says "Hello!") []);
    vm_compute; reflexivity.
Defined.

(** A first turn with no server configured. *)
Lemma empty_registry_no_manifest_witness :
  tools_section [] = "" /\
  (history None start = [] ->
   exists text,
     Demo.SYSTEM_PROMPT_format "" = Ok text /\
     deref 0 Demo.seeded_empty = [MsgSystem text]) /\
  exists req,
    trace (agent_loop Demo.outside Demo.json_loads Demo.MODEL
             Demo.SYSTEM_PROMPT_format "Hello" [] None start).2
    = trace start ++ [EvChat req] /\
    req_messages req = deref 0 Demo.seeded_empty ++ [MsgUser "Hello"] /\
    req_tools req = None.
Proof.
  apply (empty_registry_no_manifest
           Demo.outside Demo.json_loads Demo.MODEL Demo.SYSTEM_PROMPT_format
           "Hello" None start 0 Demo.seeded_empty).
  vm_compute; reflexivity.
Defined.

(** C9, against the claim as it is written: a client is created and
    connected, and connected again with no exit in between.  The second
    [connect] returns normally, and the client holds a new session and a new
    transport in place of the first ones, which were never exited. *)
Lemma second_connect_does_not_fail :
  exists w2,
    connect Demo.outside 0 (__init__ Demo.params start).2
    = (Ok tt, Demo.connected_once) /\
    session (get_client 0 Demo.connected_once) = Some 1 /\
    _client (get_client 0 Demo.connected_once) = Some 0 /\
    connect Demo.outside 0 Demo.connected_once = (Ok tt, w2) /\
    session (get_client 0 w2) = Some 3 /\
    _client (get_client 0 w2) = Some 2 /\
    trace w2 =
      [EvStdioEnter 0 Demo.params; EvSessionEnter 1 0; EvSessionInitialize 1;
       EvStdioEnter 2 Demo.params; EvSessionEnter 3 2; EvSessionInitialize 3].
Proof. eexists. vm_compute. repeat split; reflexivity. Qed.

(** The second [connect] of the client connected once. *)
Lemma connect_again_overwrites_witness :
  exists w',
    connect Demo.outside 0 Demo.connected_once = (Ok tt, w') /\
    trace w' =
      trace Demo.connected_once
      ++ [EvStdioEnter 2 Demo.params; EvSessionEnter 3 2; EvSessionInitialize 3] /\
    clients w' !! 0 =
      Some {| server_params := Demo.params; session := Some 3; _client := Some 2 |}.
Proof.
  apply (connect_again_overwrites Demo.outside 0 Demo.connected_once
           {| server_params := Demo.params; session := Some 1; _client := Some 0 |}
           1 0);
    vm_compute; reflexivity.
Defined.

(** C10: [connect] is tried on a new client and the handshake fails, so
    [connect] has not succeeded.  [get_available_tools] on that client does
    not raise the [RuntimeError] of its guard: the client holds the session
    of the failed attempt, and the request goes to it. *)
Theorem list_tools_after_failed_connect :
  exists w2,
    connect Demo.outside_no_handshake 0 (__init__ Demo.params start).2
    = (Raise (LibraryError "handshake failed"), Demo.handshake_failed) /\
    session (get_client 0 Demo.handshake_failed) = Some 1 /\
    get_available_tools Demo.outside_no_handshake 0 Demo.handshake_failed
    = (Ok (TupleData [Demo.get_weather]), w2) /\
    trace w2 = trace Demo.handshake_failed ++ [EvListTools 1].
Proof. eexists. vm_compute. repeat split; reflexivity. Qed.

(** * The further properties, on the weather server *)

(** The server process of a new client cannot be started. *)
Lemma connect_fails_before_session_witness :
  exists w',
    connect Faults.no_transport 0 Faults.new_client
    = (Raise (LibraryError "spawn failed"), w') /\
    clients w' !! 0 =
      Some {| server_params := Demo.params; session := None;
              _client := Some 0 |} /\
    get_available_tools Faults.no_transport 0 w'
    = (Raise (RuntimeError "Not connected to MCP server"), w') /\
    forall tool_name,
      call_tool 0 tool_name w'
      = (Raise (RuntimeError "Not connected to MCP server"), w').
Proof.
  apply (connect_fails_before_session Faults.no_transport 0 Faults.new_client
           {| server_params := Demo.params; session := None; _client := None |}
           (LibraryError "spawn failed"));
    [reflexivity|reflexivity|left; reflexivity].
Defined.

(** Leaving the scope of the client connected once. *)
Lemma aexit_exits_session_then_transport_witness :
  __aexit__ Demo.outside 0 Demo.connected_once =
  (Ok tt,
   {| lists := lists Demo.connected_once;
      clients := clients Demo.connected_once;
      next_id := next_id Demo.connected_once;
      trace := trace Demo.connected_once ++ [EvSessionExit 1; EvStdioExit 0] |}).
Proof.
  apply (aexit_exits_session_then_transport Demo.outside 0 Demo.connected_once
           {| server_params := Demo.params; session := Some 1; _client := Some 0 |}
           1 0);
    reflexivity.
Defined.

(** Leaving the scope when the session cannot be exited. *)
Lemma aexit_session_failure_skips_transport_witness :
  __aexit__ Faults.exit_fails 0 Demo.connected_once =
  (Raise (LibraryError "exit failed"),
   {| lists := lists Demo.connected_once;
      clients := clients Demo.connected_once;
      next_id := next_id Demo.connected_once;
      trace := trace Demo.connected_once ++ [EvSessionExit 1] |}).
Proof.
  apply (aexit_session_failure_skips_transport Faults.exit_fails 0
           Demo.connected_once
           {| server_params := Demo.params; session := Some 1; _client := Some 0 |}
           1 0 (LibraryError "exit failed"));
    reflexivity.
Defined.

(** The client connected once, after its scope was left. *)
Lemma guards_pass_after_exit_witness :
  let w' := (__aexit__ Demo.outside 0 Demo.connected_once).2 in
  (exists j, trace w' !! j = Some (EvSessionExit 1)) /\
  get_available_tools Demo.outside 0 w' =
    request (EvListTools 1)
      (fun tr => ClientSession_list_tools Demo.outside tr 1) w' /\
  call_tool 0 "get_weather" w' =
    (Ok {| self_ref := 0; tool_name := "get_weather" |}, w').
Proof.
  apply (guards_pass_after_exit Demo.outside 0 Demo.connected_once 1 (Ok tt));
    reflexivity.
Defined.

(** The handle for the weather, called for Paris. *)
Lemma handle_returns_first_text_witness :
  call Demo.outside {| self_ref := 0; tool_name := "get_weather" |}
    [("city", JStr "Paris")] Demo.ready =
  (Ok "18C, cloudy",
   {| lists := lists Demo.ready; clients := clients Demo.ready;
      next_id := next_id Demo.ready;
      trace := trace Demo.ready
               ++ [EvCallTool 1 "get_weather" [("city", JStr "Paris")]] |}).
Proof.
  apply (handle_returns_first_text Demo.outside
           {| self_ref := 0; tool_name := "get_weather" |}
           [("city", JStr "Paris")] Demo.ready 1
           {| result_content := [TextContent "18C, cloudy"] |}
           "18C, cloudy" []);
    reflexivity.
Defined.

(** The same handle when the server answers with no content. *)
Lemma handle_without_text_raises_witness :
  exists e,
    call Faults.empty_content {| self_ref := 0; tool_name := "get_weather" |}
      [("city", JStr "Paris")] Demo.ready =
    (Raise e,
     {| lists := lists Demo.ready; clients := clients Demo.ready;
        next_id := next_id Demo.ready;
        trace := trace Demo.ready
                 ++ [EvCallTool 1 "get_weather" [("city", JStr "Paris")]] |}) /\
    (@nil ContentItem = [] -> e = IndexError) /\
    (@nil ContentItem <> [] -> e = AttributeError).
Proof.
  apply (handle_without_text_raises Faults.empty_content
           {| self_ref := 0; tool_name := "get_weather" |}
           [("city", JStr "Paris")] Demo.ready 1 {| result_content := [] |});
    [reflexivity|reflexivity|discriminate].
Defined.

(** A new client whose handshake fails inside [async with]. *)
Lemma failed_enter_skips_exit_witness :
  exists w',
    async_with Demo.outside_no_handshake 0 (discover Demo.outside_no_handshake [])
      Faults.new_client
    = (Raise (LibraryError "handshake failed"), w') /\
    trace w' =
      trace Faults.new_client
      ++ [EvStdioEnter 0 Demo.params; EvSessionEnter 1 0; EvSessionInitialize 1].
Proof.
  apply (failed_enter_skips_exit Demo.outside_no_handshake 0
           (discover Demo.outside_no_handshake []) Faults.new_client
           {| server_params := Demo.params; session := None; _client := None |}
           (LibraryError "handshake failed"));
    reflexivity.
Defined.

(** A new client whose server cannot list its tools. *)
Lemma discovery_failure_still_exits_witness :
  exists e',
    async_with Faults.list_fails 0 (discover Faults.list_fails [])
      Faults.new_client
    = (Raise e',
       (__aexit__ Faults.list_fails 0
          (get_available_tools Faults.list_fails 0
             (connect Faults.list_fails 0 Faults.new_client).2).2).2) /\
    (is_ok (Ok tt : Result unit) = true -> e' = LibraryError "no tools") /\
    exists j,
      trace (__aexit__ Faults.list_fails 0
               (get_available_tools Faults.list_fails 0
                  (connect Faults.list_fails 0 Faults.new_client).2).2).2 !! j
      = Some (EvSessionExit 1).
Proof.
  apply (discovery_failure_still_exits Faults.list_fails [] 0 Faults.new_client
           (connect Faults.list_fails 0 Faults.new_client).2 1
           (LibraryError "no tools")
           (get_available_tools Faults.list_fails 0
              (connect Faults.list_fails 0 Faults.new_client).2).2
           (Ok tt));
    reflexivity.
Defined.

(** The model asks for the weather and then for a tool nobody has. *)
Lemma unknown_tool_raises_key_error_witness :
  Faults.agent_loop Faults.clock_query Demo.tools None Demo.ready
  = (Raise (KeyError "get_time"),
     Faults.paris_done Faults.clock_query Faults.call_clock).
Proof.
  apply (unknown_tool_raises_key_error
           Faults.outside Demo.json_loads Demo.MODEL Demo.SYSTEM_PROMPT_format
           Faults.clock_query Demo.tools None Demo.ready 0
           {| choices := [Demo.asks [Demo.call_paris; Faults.call_clock]] |}
           (Faults.asked Faults.clock_query)
           (Demo.asks [Demo.call_paris; Faults.call_clock]) []
           [Demo.call_paris] Faults.call_clock []
           (Faults.paris_done Faults.clock_query Faults.call_clock)
           (JDict [("city", JStr "Paris")]));
    vm_compute; reflexivity.
Defined.

(** The model asks for the weather and then sends arguments that are not
    JSON. *)
Lemma malformed_arguments_end_turn_witness :
  Faults.agent_loop Faults.bad_query Demo.tools None Demo.ready
  = (Raise JSONDecodeError,
     Faults.paris_done Faults.bad_query Faults.call_bad).
Proof.
  apply (malformed_arguments_end_turn
           Faults.outside Demo.json_loads Demo.MODEL Demo.SYSTEM_PROMPT_format
           Faults.bad_query Demo.tools None Demo.ready 0
           {| choices := [Demo.asks [Demo.call_paris; Faults.call_bad]] |}
           (Faults.asked Faults.bad_query)
           (Demo.asks [Demo.call_paris; Faults.call_bad]) []
           [Demo.call_paris] Faults.call_bad []
           (Faults.paris_done Faults.bad_query Faults.call_bad)
           JSONDecodeError);
    vm_compute; reflexivity.
Defined.

(** The model asks for the weather and then sends a list as arguments. *)
Lemma non_object_arguments_raise_type_error_witness :
  Faults.agent_loop Faults.list_query Demo.tools None Demo.ready
  = (Raise TypeError,
     Faults.paris_done Faults.list_query Faults.call_list).
Proof.
  apply (non_object_arguments_raise_type_error
           Faults.outside Demo.json_loads Demo.MODEL Demo.SYSTEM_PROMPT_format
           Faults.list_query Demo.tools None Demo.ready 0
           {| choices := [Demo.asks [Demo.call_paris; Faults.call_list]] |}
           (Faults.asked Faults.list_query)
           (Demo.asks [Demo.call_paris; Faults.call_list]) []
           [Demo.call_paris] Faults.call_list []
           (Faults.paris_done Faults.list_query Faults.call_list)
           (JList []) Faults.weather_tool);
    try (vm_compute; reflexivity).
  intros items. discriminate.
Defined.

(** The requests of the turn about Paris and Rome. *)
Lemma turn_trace_shape_witness :
  clients Demo.rome_done = clients Demo.ready /\
  exists calls tail,
    trace Demo.rome_done =
      trace Demo.ready
      ++ EvChat (first_request Demo.MODEL Demo.tools
                   (deref 0 (seed Demo.SYSTEM_PROMPT_format Demo.tools None
                               Demo.ready).2
                    ++ [MsgUser Demo.rome_query]))
         :: calls ++ tail /\
    Forall (call_to (clients Demo.ready)) calls /\
    (tail = [] \/
     exists h, tail = [EvChat {| req_model := Demo.MODEL; req_messages := h;
                                 req_tools := None; req_max_tokens := None;
                                 req_temperature := None |}]).
Proof.
  apply (turn_trace_shape
           Demo.outside Demo.json_loads Demo.MODEL Demo.SYSTEM_PROMPT_format
           Demo.rome_query Demo.tools None Demo.ready 0
           (seed Demo.SYSTEM_PROMPT_format Demo.tools None Demo.ready).2
           (Ok (Some "Here is the weather.", 0)) Demo.rome_done);
    vm_compute; reflexivity.
Defined.

(** A second turn of the session, failing at Atlantis, on the list of the
    first. *)
Lemma inherited_history_only_grows_witness :
  exists more,
    lists (Demo.agent_loop Demo.compare_query Demo.tools (Some 0)
             Faults.after_hello).2
    = alter (fun h => h ++ MsgUser Demo.compare_query :: more) 0
        (lists Faults.after_hello) /\
    forall text l',
      (Raise (LibraryError "unknown city") : Result (option string * nat))
      = Ok (text, l') ->
      l' = 0 /\ exists earlier, more = earlier ++ [MsgAssistant text].
Proof.
  apply (inherited_history_only_grows
           Demo.outside Demo.json_loads Demo.MODEL Demo.SYSTEM_PROMPT_format
           Demo.compare_query Demo.tools 0 Faults.after_hello
           (Raise (LibraryError "unknown city"))
           (Demo.agent_loop Demo.compare_query Demo.tools (Some 0)
              Faults.after_hello).2).
  - vm_compute. discriminate.
  - vm_compute; reflexivity.
Defined.

(** A first turn with the template that cannot be formatted. *)
Lemma broken_template_ends_fresh_turn_witness :
  agent_loop Demo.outside Demo.json_loads Demo.MODEL Faults.broken_template
    "Hello" Demo.tools None Demo.ready
  = (Raise (KeyError "user"), Demo.ready).
Proof.
  apply (broken_template_ends_fresh_turn
           Demo.outside Demo.json_loads Demo.MODEL Faults.broken_template
           "Hello" Demo.tools None Demo.ready (KeyError "user"));
    reflexivity.
Defined.

(** The first turn of the session, saying hello. *)
Lemma fresh_turn_builds_new_list_witness :
  exists more,
    lists (Demo.agent_loop "Hello" Demo.tools None Demo.ready).2
    = lists Demo.ready
      ++ [MsgSystem Demo.system_text :: MsgUser "Hello" :: more] /\
    forall answer l',
      (Ok (Some "Hello!", 0) : Result (option string * nat)) = Ok (answer, l') ->
      l' = length (lists Demo.ready) /\
      exists earlier, more = earlier ++ [MsgAssistant answer].
Proof.
  apply (fresh_turn_builds_new_list
           Demo.outside Demo.json_loads Demo.MODEL Demo.SYSTEM_PROMPT_format
           "Hello" Demo.tools None Demo.ready Demo.system_text
           (Ok (Some "Hello!", 0))
           (Demo.agent_loop "Hello" Demo.tools None Demo.ready).2);
    vm_compute; reflexivity.
Defined.

(** The weather tool registered a second time, over itself. *)
Lemma register_tools_last_wins_witness :
  exists tools',
    register_tools 0 Demo.tools [Demo.get_weather] Demo.ready
    = (Ok tools', Demo.ready) /\
    (forall tool, tool ∈ [Demo.get_weather] ->
       exists t, getitem tools' (ti_name tool) = Some t /\
                 callable t = {| self_ref := 0; tool_name := ti_name tool |}) /\
    (forall k, k ∉ map ti_name [Demo.get_weather] ->
       getitem tools' k = getitem Demo.tools k) /\
    (exists new, map fst tools' = map fst Demo.tools ++ new).
Proof.
  apply (register_tools_last_wins 0 Demo.tools [Demo.get_weather] Demo.ready 1).
  reflexivity.
Defined.

(** The client connected once, on a server whose list of tools is not a
    tuple. *)
Lemma discover_ignores_other_data_witness :
  discover Faults.other_data [] 0 Demo.connected_once =
  (Ok [],
   {| lists := lists Demo.connected_once;
      clients := clients Demo.connected_once;
      next_id := next_id Demo.connected_once;
      trace := trace Demo.connected_once ++ [EvListTools 1] |}).
Proof.
  apply (discover_ignores_other_data Faults.other_data [] 0
           Demo.connected_once 1);
    reflexivity.
Defined.

(** Two servers configured, the first with a handshake that fails. *)
Lemma first_failure_stops_setup_witness :
  setup Demo.outside_no_handshake (Demo.mcp_servers ++ Demo.mcp_servers)
    [] [] start
  = (Raise (LibraryError "handshake failed"),
     (setup Demo.outside_no_handshake Demo.mcp_servers [] [] start).2).
Proof.
  apply (first_failure_stops_setup Demo.outside_no_handshake
           Demo.mcp_servers Demo.mcp_servers [] [] start).
  vm_compute; reflexivity.
Defined.

(** The registry of the session with the weather server. *)
Lemma registry_well_formed_witness :
  NoDup (map fst Demo.tools) /\
  Forall entry_named Demo.tools /\
  map fn_name (map schema (values Demo.tools)) = map fst Demo.tools.
Proof.
  apply (registry_well_formed
           Demo.outside Demo.json_loads Demo.MODEL Demo.SYSTEM_PROMPT_format
           Demo.mcp_servers [Line Demo.paris_query] start AtPrompt Demo.tools
           (Some 0) (Demo.main [Line Demo.paris_query] start).2).
  vm_compute; reflexivity.
Defined.

(** The handle for the weather, after the turn about Paris. *)
Lemma registered_handles_hold_sessions_witness :
  exists s,
    session (get_client (self_ref (callable Faults.weather_tool))
               (Demo.main [Line Demo.paris_query] start).2) = Some s.
Proof.
  apply (registered_handles_hold_sessions
           Demo.outside Demo.json_loads Demo.MODEL Demo.SYSTEM_PROMPT_format
           Demo.mcp_servers [Line Demo.paris_query] start AtPrompt Demo.tools
           (Some 0) (Demo.main [Line Demo.paris_query] start).2
           "get_weather" Faults.weather_tool);
    vm_compute; reflexivity.
Defined.

(** The session whose only server fails its handshake. *)
Lemma startup_failure_ends_session_witness :
  let failed :=
    main Demo.outside_no_handshake Demo.json_loads Demo.MODEL
      Demo.SYSTEM_PROMPT_format Demo.mcp_servers [] start in
  (forall inputs',
     main Demo.outside_no_handshake Demo.json_loads Demo.MODEL
       Demo.SYSTEM_PROMPT_format Demo.mcp_servers inputs' start
     = (Startup_failed (LibraryError "handshake failed"), failed.2)) /\
  grows_by_startup start failed.2 /\
  chat_requests (trace failed.2) = chat_requests (trace start).
Proof.
  apply (startup_failure_ends_session
           Demo.outside_no_handshake Demo.json_loads Demo.MODEL
           Demo.SYSTEM_PROMPT_format Demo.mcp_servers [] start
           (LibraryError "handshake failed")).
  vm_compute; reflexivity.
Defined.

(** The session in which the user types QUIT at once. *)
Lemma quit_sends_no_chat_request_witness :
  (Demo.main [Line "QUIT"; Line Demo.paris_query] start).2
  = (Demo.main [] start).2 /\
  chat_requests (trace (Demo.main [Line "QUIT"; Line Demo.paris_query] start).2)
  = chat_requests (trace start) /\
  forall tools messages,
    (Demo.main [Line "QUIT"; Line Demo.paris_query] start).1
    <> Session AtPrompt tools messages.
Proof.
  apply (quit_sends_no_chat_request
           Demo.outside Demo.json_loads Demo.MODEL Demo.SYSTEM_PROMPT_format
           Demo.mcp_servers (Line "QUIT") [Line Demo.paris_query] start).
  vm_compute; reflexivity.
Defined.


(** The same session, run: startup, one chat-completion request, and the
    turn ends looking for the tool the model asked for. *)
Lemma session_without_registered_handle :
  let run :=
    main Faults.other_data Demo.json_loads Demo.MODEL Demo.SYSTEM_PROMPT_format
      Demo.mcp_servers [Line Demo.paris_query] start in
  run.1 = Session AtPrompt [] None /\
  map startup_event (trace run.2)
  = [true; true; true; true; true; true; false] /\
  chat_requests (trace run.2)
  = [first_request Demo.MODEL []
       [MsgSystem "You can use these tools: "; MsgUser Demo.paris_query]] /\
  agent_loop Faults.other_data Demo.json_loads Demo.MODEL
    Demo.SYSTEM_PROMPT_format Demo.paris_query [] None
    (main Faults.other_data Demo.json_loads Demo.MODEL
       Demo.SYSTEM_PROMPT_format Demo.mcp_servers [] start).2
  = (Raise (KeyError "get_weather"), run.2).
Proof. vm_compute. repeat split; reflexivity. Qed.
